(** * Tabular Model Integrity Engine: the Excel task pane (ModelChat.tsx)

  A shallow embedding of the code that reads and writes the live
  workbook from the chat pane:

  - [colToNum] and the range-address parsing done inside
    [executeActions];
  - [executeActions], the mutation executor: a loop that queues
    operations on an Office.js request context and a final
    [context.sync()];
  - [extractModelSnapshot], the sparse snapshot extractor;
  - the agent-mode gate of [sendMessage];
  - the [ErrorItem] record of the error checker pane.

  JavaScript numbers are modelled as [Z] (the code only does integer
  arithmetic on them), strings as [string] (addresses and sheet names
  are ASCII), [any]-typed JSON payloads by the small value type
  [JsVal]. *)

From Stdlib Require Import ZArith String Ascii List Lia Bool.
From stdpp Require Import base option list gmap strings pretty.

Local Open Scope string_scope.
Local Open Scope list_scope.

(* ===================================================================== *)
(** ** JavaScript values and exceptions *)
(* ===================================================================== *)

Module Js.

(** The JSON-shaped values that cells and action payloads carry. *)
Inductive JsVal : Type :=
| JUndefined
| JNull
| JBool (b : bool)
| JNum (n : Z)
| JStr (s : string).

(** [ToBoolean]: what [if (v)] and [v || w] test. *)
Definition truthy (v : JsVal) : bool :=
  match v with
  | JUndefined | JNull => false
  | JBool b => b
  | JNum n => negb (n =? 0)%Z
  | JStr s => negb (String.eqb s "")
  end.

(** [v || w] *)
Definition or_else (v w : JsVal) : JsVal := if truthy v then v else w.

(** [v === "" || v === null] *)
Definition is_blank (v : JsVal) : bool :=
  match v with
  | JStr "" => true
  | JNull => true
  | _ => false
  end.

(** What a [throw] carries.  [NullDeref] is the [TypeError] raised by
    indexing [null] or [undefined] (the [null] that
    [String.prototype.match] returns when the pattern does not occur,
    a row missing from a 2-D array); [DimensionMismatch] is the [Error] built in
    the [setRangeValues] branch (its message interpolates exactly these
    five values); [HostError] is a rejection of [context.sync()]. *)
Inductive Exn : Type :=
| NullDeref
| DimensionMismatch (range : string)
                    (expectedRows expectedCols actualRows actualCols : Z)
| HostError.

(** Completion of a statement: normal, or abrupt by [throw]. *)
Inductive Outcome (A : Type) : Type :=
| Normal (a : A)
| Throw (e : Exn).
Arguments Normal {A} a.
Arguments Throw {A} e.

(** Sequencing of two fallible computations. *)
Definition andThen {A B} (o : Outcome A) (k : A -> Outcome B) : Outcome B :=
  match o with
  | Normal a => k a
  | Throw e => Throw e
  end.

End Js.
Export Js.

(* ===================================================================== *)
(** ** Address arithmetic *)
(* ===================================================================== *)

Module Address.

(** [s.charCodeAt(i)] *)
Definition charCode (ch : ascii) : Z := Z.of_nat (nat_of_ascii ch).

(** The loop of [colToNum], started with accumulator [num]. *)
Fixpoint colToNum_from (num : Z) (col : string) : Z :=
  match col with
  | EmptyString => num
  | String ch rest => colToNum_from (num * 26 + (charCode ch - 64)) rest
  end.

(** [colToNum]: column letters to number (A=1, B=2, ...). *)
Definition colToNum (col : string) : Z := colToNum_from 0 col.

(** Reference encoder, following the specification's words ("base-26,
    1-indexed, no zero digit"): the standard column-letter encoding of
    a positive number.  The program has no encoder of its own; this
    definition exists to state the round trip. *)
Fixpoint numToCol_fuel (fuel : nat) (n : Z) (acc : string) : string :=
  match fuel with
  | O => acc
  | S fuel' =>
      if (n <=? 0)%Z then acc
      else numToCol_fuel fuel' ((n - 1) / 26)
             (String (ascii_of_nat (Z.to_nat (65 + (n - 1) mod 26))) acc)
  end.

Definition numToCol (n : Z) : string := numToCol_fuel (Z.to_nat n) n "".

(** *** The two regular expressions and [parseInt] *)

Definition isUpper (ch : ascii) : bool :=
  ((65 <=? charCode ch) && (charCode ch <=? 90))%Z.

Definition isDigit (ch : ascii) : bool :=
  ((48 <=? charCode ch) && (charCode ch <=? 57))%Z.

Fixpoint takeWhile (p : ascii -> bool) (s : string) : string :=
  match s with
  | EmptyString => EmptyString
  | String ch rest => if p ch then String ch (takeWhile p rest) else EmptyString
  end.

Fixpoint dropUntil (p : ascii -> bool) (s : string) : string :=
  match s with
  | EmptyString => EmptyString
  | String ch rest => if p ch then s else dropUntil p rest
  end.

(** [s.match(/[p]+/)]: the leftmost maximal run of characters in the
    class, or [null] ([None]) when no character of the class occurs. *)
Definition matchRun (p : ascii -> bool) (s : string) : option string :=
  match takeWhile p (dropUntil p s) with
  | EmptyString => None
  | run => Some run
  end.

(** [parseInt] on a run of decimal digits. *)
Fixpoint parseInt_from (acc : Z) (s : string) : Z :=
  match s with
  | EmptyString => acc
  | String ch rest => parseInt_from (acc * 10 + (charCode ch - 48)) rest
  end.

Definition parseInt (s : string) : Z := parseInt_from 0 s.

(** [s.split(':')] *)
Fixpoint split (sep : ascii) (s : string) : list string :=
  match s with
  | EmptyString => [EmptyString]
  | String ch rest =>
      if Ascii.eqb ch sep then EmptyString :: split sep rest
      else match split sep rest with
           | piece :: pieces => String ch piece :: pieces
           | [] => [String ch EmptyString]
           end
  end.

(** [s.match(/[A-Z]+/)[0]] and [parseInt(s.match(/\d+/)[0])] for one
    corner of a range; indexing a [null] match throws. *)
Definition cornerOf (cellAddr : string) : Outcome (string * Z) :=
  match matchRun isUpper cellAddr with
  | None => Throw NullDeref
  | Some col =>
      match matchRun isDigit cellAddr with
      | None => Throw NullDeref
      | Some digits => Normal (col, parseInt digits)
      end
  end.

End Address.
Export Address.

(* ===================================================================== *)
(** ** The grid host (Office.js)

  The workbook is reached through a request context: property writes
  and method calls on proxy objects are queued, and [context.sync()]
  hands the queue to the host, which runs it in order and rejects at
  the first operation it cannot perform.  The host is an external
  collaborator; the model below keeps what the executor relies on:
  sheets by name, cells with a content and four formatting
  attributes, and the meaning of each queued operation.  How an
  address string denotes a rectangle of cells is left to the host
  ([resolve], a parameter of the model). *)
(* ===================================================================== *)

Module Host.

Inductive Content : Type :=
| Blank
| Literal (v : JsVal)
| Formula (f : string).

Record Cell : Type := mkCell {
  content : Content;
  numberFormat : string;
  bold : bool;
  fontColor : string;
  fillColor : string
}.

(** A sheet maps zero-based (row, column) to a cell. *)
Definition Sheet : Type := nat -> nat -> Cell.

Record Rect : Type := mkRect {
  top : nat; left : nat; height : nat; width : nat
}.

Definition inRect (rc : Rect) (r c : nat) : bool :=
  ((top rc <=? r) && (r <? top rc + height rc) &&
   (left rc <=? c) && (c <? left rc + width rc))%nat.

(** [Excel.ClearApplyTo] *)
Inductive ClearApplyTo : Type :=
| ClearAll | ClearFormats | ClearContents | ClearHyperlinks.

(** Operations a request context can hold. *)
Inductive Op : Type :=
| OpGetItem (sheet : string)                    (* worksheets.getItem(name) *)
| OpGetRange (sheet addr : string)              (* sheet.getRange(addr) *)
| OpSetValues (sheet addr : string) (grid : list (list JsVal))
| OpSetFormulas (sheet addr : string) (grid : list (list string))
| OpClear (sheet addr : string) (applyTo : ClearApplyTo)
| OpSetBold (sheet addr : string) (b : bool)
| OpSetNumberFormat (sheet addr : string) (fmt : string)
| OpSetFillColor (sheet addr : string) (color : string)
| OpSetFontColor (sheet addr : string) (color : string).

Definition set_content (k : Content) (x : Cell) : Cell :=
  mkCell k (numberFormat x) (bold x) (fontColor x) (fillColor x).
Definition set_numberFormat (f : string) (x : Cell) : Cell :=
  mkCell (content x) f (bold x) (fontColor x) (fillColor x).
Definition set_bold (b : bool) (x : Cell) : Cell :=
  mkCell (content x) (numberFormat x) b (fontColor x) (fillColor x).
Definition set_fontColor (k : string) (x : Cell) : Cell :=
  mkCell (content x) (numberFormat x) (bold x) k (fillColor x).
Definition set_fillColor (k : string) (x : Cell) : Cell :=
  mkCell (content x) (numberFormat x) (bold x) (fontColor x) k.

(** Formatting of a cell that was never formatted. *)
Definition reset_format (x : Cell) : Cell :=
  mkCell (content x) "General" false "#000000" "".

Definition clear_cell (applyTo : ClearApplyTo) (x : Cell) : Cell :=
  match applyTo with
  | ClearAll => reset_format (set_content Blank x)
  | ClearFormats => reset_format x
  | ClearContents => set_content Blank x
  | ClearHyperlinks => x
  end.

(** Apply [f] to every cell of the rectangle. *)
Definition mapRect (rc : Rect) (f : Cell -> Cell) (sh : Sheet) : Sheet :=
  fun r c => if inRect rc r c then f (sh r c) else sh r c.

(** A 2-D payload fits a rectangle when it has one row per row of the
    rectangle and every row has one entry per column. *)
Definition fits {A} (rc : Rect) (grid : list (list A)) : bool :=
  ((length grid =? height rc)%nat &&
   forallb (fun row => (length row =? width rc)%nat) grid).

Definition gridAt {A} (grid : list (list A)) (r c : nat) : option A :=
  grid !! r ≫= fun row => row !! c.

(** Write a payload over the rectangle; rejected when it does not fit. *)
Definition writeGrid {A} (mk : A -> Content) (rc : Rect)
    (grid : list (list A)) (sh : Sheet) : option Sheet :=
  if fits rc grid then
    Some (fun r c =>
            if inRect rc r c then
              match gridAt grid (r - top rc) (c - left rc) with
              | Some a => set_content (mk a) (sh r c)
              | None => sh r c
              end
            else sh r c)
  else None.

Section WithResolver.

(** The host's reading of an address string. *)
Variable resolve : string -> option Rect.

(** Run an operation on one sheet. *)
Definition onRange (wb : gmap string Sheet) (sheet addr : string)
    (f : Rect -> Sheet -> option Sheet) : option (gmap string Sheet) :=
  sh ← wb !! sheet;
  rc ← resolve addr;
  sh' ← f rc sh;
  Some (<[sheet := sh']> wb).

(** What the host does with one queued operation; [None] is a
    rejection (unknown sheet, bad address, payload that does not
    fit). *)
Definition applyOp (op : Op) (wb : gmap string Sheet)
    : option (gmap string Sheet) :=
  match op with
  | OpGetItem sheet => _ ← wb !! sheet; Some wb
  | OpGetRange sheet addr => _ ← wb !! sheet; _ ← resolve addr; Some wb
  | OpSetValues sheet addr grid =>
      onRange wb sheet addr (fun rc => writeGrid Literal rc grid)
  | OpSetFormulas sheet addr grid =>
      onRange wb sheet addr (fun rc => writeGrid Formula rc grid)
  | OpClear sheet addr applyTo =>
      onRange wb sheet addr (fun rc sh => Some (mapRect rc (clear_cell applyTo) sh))
  | OpSetBold sheet addr b =>
      onRange wb sheet addr (fun rc sh => Some (mapRect rc (set_bold b) sh))
  | OpSetNumberFormat sheet addr fmt =>
      onRange wb sheet addr (fun rc sh => Some (mapRect rc (set_numberFormat fmt) sh))
  | OpSetFillColor sheet addr color =>
      onRange wb sheet addr (fun rc sh => Some (mapRect rc (set_fillColor color) sh))
  | OpSetFontColor sheet addr color =>
      onRange wb sheet addr (fun rc sh => Some (mapRect rc (set_fontColor color) sh))
  end.

(** [context.sync()]: the queue runs in order; at the first rejected
    operation the promise rejects, and what ran before it stays. *)
Fixpoint sync (queue : list Op) (wb : gmap string Sheet)
    : Outcome unit * gmap string Sheet :=
  match queue with
  | [] => (Normal tt, wb)
  | op :: rest =>
      match applyOp op wb with
      | Some wb' => sync rest wb'
      | None => (Throw HostError, wb)
      end
  end.

End WithResolver.

End Host.

(* ===================================================================== *)
(** ** The mutation executor: [executeActions] *)
(* ===================================================================== *)

Module ActionFormat.
(** [action.format]; an absent option is [None]. *)
Record t : Type := mk {
  bold : option bool;
  numberFormat : option string;
  bgColor : option string;
  fontColor : option string
}.
End ActionFormat.

Module Executor.
Import Host.

(** The JSON actions, by their [type] discriminator.  The if/else
    chain has no final [else]: an action of any other type only
    resolves its sheet ([otherAction]). *)
Inductive Action : Type :=
| setCellValue (sheet cell : string) (value : JsVal)
| setFormula (sheet cell : string) (formula : string)
| setRangeValues (sheet range : string) (values : list (list JsVal))
| setRangeFormulas (sheet range : string) (formulas : list (list string))
| clearRange (sheet range : string)
| formatCell (sheet cell : string) (format : ActionFormat.t)
| otherAction (type sheet : string).

(** Console lines written by the executor. *)
Inductive LogEntry : Type :=
| LogRange (range : string)
           (expectedRows expectedCols actualRows actualCols : Z)
| LogActionFailed (action : Action) (err : Exn)
| LogAllExecuted.

(** The request context of one [Excel.run]: the queue of operations
    not yet synced, and the console. *)
Record RequestContext : Type := mkContext {
  pending : list Op;
  console : list LogEntry
}.

(** Statements of the batch function: they read and extend the
    request context and complete normally or throw. *)
Definition Exec (A : Type) : Type :=
  RequestContext -> Outcome A * RequestContext.

Definition ret {A} (a : A) : Exec A := fun ctx => (Normal a, ctx).

Definition throw {A} (e : Exn) : Exec A := fun ctx => (Throw e, ctx).

Definition bind {A B} (m : Exec A) (k : A -> Exec B) : Exec B :=
  fun ctx =>
    match m ctx with
    | (Normal a, ctx') => k a ctx'
    | (Throw e, ctx') => (Throw e, ctx')
    end.

Definition lift {A} (o : Outcome A) : Exec A := fun ctx => (o, ctx).

Definition queue (op : Op) : Exec unit :=
  fun ctx => (Normal tt, mkContext (pending ctx ++ [op]) (console ctx)).

Definition log (entry : LogEntry) : Exec unit :=
  fun ctx => (Normal tt, mkContext (pending ctx) (console ctx ++ [entry])).

Definition tryCatch {A} (body : Exec A) (handler : Exn -> Exec A) : Exec A :=
  fun ctx =>
    match body ctx with
    | (Normal a, ctx') => (Normal a, ctx')
    | (Throw e, ctx') => handler e ctx'
    end.

Notation "m1 ;; m2" := (bind m1 (fun _ => m2))
  (at level 100, m2 at level 200, right associativity).

(** [if (v) ...] on an optional boolean / optional string. *)
Definition isTrue (v : option bool) : bool :=
  match v with Some true => true | _ => false end.

Definition nonEmpty (v : option string) : option string :=
  match v with
  | Some s => if String.eqb s "" then None else Some s
  | None => None
  end.

Definition when (b : bool) (m : Exec unit) : Exec unit :=
  if b then m else ret tt.

Definition whenSome (v : option string) (m : string -> Exec unit) : Exec unit :=
  match v with Some s => m s | None => ret tt end.

(** [action.values[0]?.length || 0] *)
Definition firstRowLength {A} (grid : list (list A)) : Z :=
  match grid with
  | [] => 0
  | row :: _ => Z.of_nat (length row)
  end.

(** The block "Parse range to get dimensions" of the
    [setRangeValues] branch. *)
Definition checkDimensions (range : string) (values : list (list JsVal))
    : Exec unit :=
  match split ":" range with
  | [startCell; endCell] =>
      bind (lift (cornerOf startCell)) (fun '(startCol, startRow) =>
      bind (lift (cornerOf endCell)) (fun '(endCol, endRow) =>
      let expectedRows := (endRow - startRow + 1)%Z in
      let expectedCols := (colToNum endCol - colToNum startCol + 1)%Z in
      let actualRows := Z.of_nat (length values) in
      let actualCols := firstRowLength values in
      log (LogRange range expectedRows expectedCols actualRows actualCols) ;;
      if negb (expectedRows =? actualRows)%Z || negb (expectedCols =? actualCols)%Z
      then throw (DimensionMismatch range expectedRows expectedCols
                                    actualRows actualCols)
      else ret tt))
  | _ => ret tt
  end.

(** The body of the [try] block, one action. *)
Definition applyAction (action : Action) : Exec unit :=
  match action with
  | setCellValue sheet cell value =>
      queue (OpGetItem sheet) ;;
      queue (OpGetRange sheet cell) ;;
      queue (OpSetValues sheet cell [[value]])
  | setFormula sheet cell formula =>
      queue (OpGetItem sheet) ;;
      queue (OpGetRange sheet cell) ;;
      queue (OpSetFormulas sheet cell [[formula]])
  | setRangeValues sheet range values =>
      queue (OpGetItem sheet) ;;
      checkDimensions range values ;;
      queue (OpGetRange sheet range) ;;
      queue (OpSetValues sheet range values)
  | setRangeFormulas sheet range formulas =>
      queue (OpGetItem sheet) ;;
      queue (OpGetRange sheet range) ;;
      queue (OpSetFormulas sheet range formulas)
  | clearRange sheet range =>
      queue (OpGetItem sheet) ;;
      queue (OpGetRange sheet range) ;;
      queue (OpClear sheet range ClearContents)
  | formatCell sheet cell format =>
      queue (OpGetItem sheet) ;;
      queue (OpGetRange sheet cell) ;;
      when (isTrue (ActionFormat.bold format))
        (queue (OpSetBold sheet cell true)) ;;
      whenSome (nonEmpty (ActionFormat.numberFormat format))
        (fun fmt => queue (OpSetNumberFormat sheet cell fmt)) ;;
      whenSome (nonEmpty (ActionFormat.bgColor format))
        (fun color => queue (OpSetFillColor sheet cell color)) ;;
      whenSome (nonEmpty (ActionFormat.fontColor format))
        (fun color => queue (OpSetFontColor sheet cell color))
  | otherAction _ sheet =>
      queue (OpGetItem sheet)
  end.

(** One iteration: [try { ... } catch (err) { console.error(...);
    throw err; }]. *)
Definition iteration (action : Action) : Exec unit :=
  tryCatch (applyAction action)
           (fun err => log (LogActionFailed action err) ;; throw err).

(** [for (const action of actions) { ... }] *)
Fixpoint forOf (actions : list Action) : Exec unit :=
  match actions with
  | [] => ret tt
  | action :: rest => iteration action ;; forOf rest
  end.

(** What one [executeActions] call leaves behind: how the promise
    settled, the workbook, the console, the request context's queue
    when the batch function stopped queuing, and whether
    [context.sync()] was called. *)
Record ExecResult : Type := mkResult {
  outcome : Outcome unit;
  document : gmap string Sheet;
  consoleOut : list LogEntry;
  queued : list Op;
  synced : bool
}.

Section WithResolver.

Variable resolve : string -> option Rect.

(** [executeActions]: the batch function passed to [Excel.run].  A
    throw inside the loop leaves the batch function before
    [context.sync()], and [Excel.run] rejects without syncing. *)
Definition executeActions (actions : list Action) (wb : gmap string Sheet)
    : ExecResult :=
  match forOf actions (mkContext [] []) with
  | (Throw e, ctx) =>
      mkResult (Throw e) wb (console ctx) (pending ctx) false
  | (Normal _, ctx) =>
      match sync resolve (pending ctx) wb with
      | (Throw e, wb') =>
          mkResult (Throw e) wb' (console ctx) (pending ctx) true
      | (Normal _, wb') =>
          mkResult (Normal tt) wb' (console ctx ++ [LogAllExecuted])
                   (pending ctx) true
      end
  end.

(** What [sendMessage] does with the actions of a response: run the
    executor, log that it ignores them, or nothing. *)
Inductive Dispatch : Type :=
| Executed (r : ExecResult)
| Ignored (count : nat)
| NoActions.

(** The tail of [sendMessage]: "Execute any actions returned by AI
    (only in Agent Mode)".  [actions] is [parsedData.actions]
    ([None] when the field is absent). *)
Definition sendMessage_actions (agentMode : bool)
    (actions : option (list Action)) (wb : gmap string Sheet) : Dispatch :=
  match actions with
  | None => NoActions
  | Some actions =>
      if (0 <? length actions)%nat then
        if agentMode then Executed (executeActions actions wb)
        else Ignored (length actions)
      else NoActions
  end.

(** The workbook after the dispatch. *)
Definition documentAfter (d : Dispatch) (wb : gmap string Sheet)
    : gmap string Sheet :=
  match d with
  | Executed r => document r
  | Ignored _ | NoActions => wb
  end.

End WithResolver.

End Executor.

(* ===================================================================== *)
(** ** The snapshot extractor: [extractModelSnapshot] *)
(* ===================================================================== *)

Module CellFormat.
(** [cell.format], loaded with font/bold, font/color, fill/color. *)
Record t : Type := mk {
  bold : bool;
  fontColor : string;
  fillColor : string
}.
End CellFormat.

Module UsedRange.
(** [sheet.getUsedRange()] after its [load] and [sync]: the loaded
    properties, and [getCell(row, col).format] for the per-cell
    loads. *)
Record t : Type := mk {
  values : list (list JsVal);
  formulas : list (list JsVal);
  numberFormat : list (list JsVal);
  address : string;
  rowCount : nat;
  columnCount : nat;
  rowIndex : nat;
  columnIndex : nat;
  getCell : nat -> nat -> CellFormat.t
}.
End UsedRange.

Module CellRecord.
(** One element of [cells]. *)
Record t : Type := mk {
  row : nat;
  col : nat;
  value : JsVal;
  formula : JsVal;
  numberFormat : JsVal;
  bold : bool;
  fontColor : string;
  fillColor : string
}.
End CellRecord.

Module Snapshot.

(** [grid[row][col]]: a missing row makes the second index throw, a
    missing column reads [undefined]. *)
Definition at2 (grid : list (list JsVal)) (row col : nat) : Outcome JsVal :=
  match grid !! row with
  | None => Throw NullDeref
  | Some cells => Normal (default JUndefined (cells !! col))
  end.

(** The body of the inner loop at ([row], [col]): [continue] on a
    completely empty cell, otherwise [cells.push({...})]. *)
Definition visitCell (u : UsedRange.t) (row col : nat)
    (cells : list CellRecord.t) : Outcome (list CellRecord.t) :=
  andThen (at2 (UsedRange.values u) row col) (fun value =>
  andThen (at2 (UsedRange.formulas u) row col) (fun formula =>
  if is_blank value && is_blank formula then Normal cells
  else
    let cell := UsedRange.getCell u row col in
    andThen (at2 (UsedRange.numberFormat u) row col) (fun nf =>
    Normal (cells ++
      [CellRecord.mk (UsedRange.rowIndex u + row)
                     (UsedRange.columnIndex u + col)
                     value
                     (or_else formula JNull)
                     nf
                     (CellFormat.bold cell)
                     (CellFormat.fontColor cell)
                     (CellFormat.fillColor cell)])%list))).

(** [for (let i = 0; i < n; i++) body], threading the accumulator;
    [indices] is [seq 0 n]. *)
Fixpoint forIndex {S} (indices : list nat) (body : nat -> S -> Outcome S)
    (s : S) : Outcome S :=
  match indices with
  | [] => Normal s
  | i :: rest => andThen (body i s) (forIndex rest body)
  end.

(** The two nested loops over one sheet's used range. *)
Definition sheetCells (u : UsedRange.t) : Outcome (list CellRecord.t) :=
  forIndex (seq 0 (UsedRange.rowCount u))
    (fun row =>
       forIndex (seq 0 (UsedRange.columnCount u))
         (fun col => visitCell u row col))
    [].

Record SheetSnapshot : Type := mkSheet {
  cells : list CellRecord.t;
  address : string
}.

(** [for (const sheet of sheets.items) { ...;
    snapshot[sheet.name] = {cells, address} }] *)
Fixpoint forSheets (items : list (string * UsedRange.t))
    (snapshot : gmap string SheetSnapshot)
    : Outcome (gmap string SheetSnapshot) :=
  match items with
  | [] => Normal snapshot
  | (name, u) :: rest =>
      andThen (sheetCells u) (fun cells =>
      forSheets rest (<[name := mkSheet cells (UsedRange.address u)]> snapshot))
  end.

(** [extractModelSnapshot], on the worksheets in collection order. *)
Definition extractModelSnapshot (items : list (string * UsedRange.t))
    : Outcome (gmap string SheetSnapshot) :=
  forSheets items ∅.

(** The host's guarantee on a loaded range: each of the three grids
    has [rowCount] rows of [columnCount] entries. *)
Definition rectangular (u : UsedRange.t) (grid : list (list JsVal)) : bool :=
  (length grid =? UsedRange.rowCount u)%nat &&
  forallb (fun cells => (length cells =? UsedRange.columnCount u)%nat) grid.

Definition loaded (u : UsedRange.t) : bool :=
  rectangular u (UsedRange.values u) &&
  rectangular u (UsedRange.formulas u) &&
  rectangular u (UsedRange.numberFormat u).

End Snapshot.

(* ===================================================================== *)
(** ** The error checker pane: [ErrorItem] and [navigateToError] *)
(* ===================================================================== *)

Module ErrorChecker.

(** [ErrorItem.type] *)
Inductive ErrorType : Type := formula | circular | missing | inconsistent.

(** [ErrorItem.severity] *)
Inductive Severity : Type := critical | warning.

Record ErrorItem : Type := mkErrorItem {
  sheet : string;
  cell : string;
  type : ErrorType;
  severity : Severity;
  message : string
}.

(** What [navigateToError] asks of the host. *)
Inductive NavOp : Type :=
| NavGetItem (sheet : string)
| NavActivate (sheet : string)
| NavGetRange (sheet addr : string)
| NavSelect (sheet addr : string)
| NavSync.

Definition navigateToError (error : ErrorItem) : list NavOp :=
  [ NavGetItem (sheet error);
    NavActivate (sheet error);
    NavGetRange (sheet error) (cell error);
    NavSelect (sheet error) (cell error);
    NavSync ].

(** The kinds of finding as the specification lists them (its data
    model, "Finding"); compared below with [ErrorType]. *)
Inductive SpecFindingKind : Type :=
| malformed_formula
| circular_reference
| missing_reference
| dimension_mismatch
| inconsistent_assumption.

(** The specification's kind that each [ErrorType] stands for. *)
Definition specKind (t : ErrorType) : SpecFindingKind :=
  match t with
  | formula => malformed_formula
  | circular => circular_reference
  | missing => missing_reference
  | inconsistent => inconsistent_assumption
  end.

End ErrorChecker.

(* ===================================================================== *)
(** ** Vocabulary for the statements *)
(* ===================================================================== *)

Module Batch.
Import Host Executor.

(** A fresh request context. *)
Definition emptyContext : RequestContext := mkContext [] [].

(** What applying one action to a fresh context does. *)
Definition queuedBy (action : Action) : list Op :=
  pending (snd (applyAction action emptyContext)).

Definition loggedBy (action : Action) : list LogEntry :=
  console (snd (applyAction action emptyContext)).

Definition completion (action : Action) : Outcome unit :=
  fst (applyAction action emptyContext).

(** The action's [try] body completes normally. *)
Definition applies (action : Action) : bool :=
  match completion action with
  | Normal _ => true
  | Throw _ => false
  end.

(** A statement whose effect on the request context is to append to
    the queue and the console, independently of what they hold. *)
Definition appends {A} (m : Exec A) : Prop :=
  forall ctx,
    m ctx = (fst (m emptyContext),
             mkContext (pending ctx ++ pending (snd (m emptyContext)))
                       (console ctx ++ console (snd (m emptyContext)))).

(** Whether an address holds a colon. *)
Fixpoint hasColon (s : string) : bool :=
  match s with
  | EmptyString => false
  | String ch rest => Ascii.eqb ch ":" || hasColon rest
  end.

(** The payload's shape, as the dimension check reads it. *)
Definition shapeMatches {A} (rows cols : Z) (grid : list (list A)) : bool :=
  (rows =? Z.of_nat (length grid))%Z && (cols =? firstRowLength grid)%Z.

End Batch.

Module Frame.
Import Host Executor.

(** [wb'] has every sheet of [wb], and each cell is related to its
    former self by [P]. *)
Definition cellwise (P : Cell -> Cell -> Prop)
    (wb wb' : gmap string Sheet) : Prop :=
  forall name sh,
    wb !! name = Some sh ->
    exists sh', wb' !! name = Some sh' /\ forall r c, P (sh r c) (sh' r c).

(** The cell transformers an operation may apply. *)
Inductive opEffect : Op -> Cell -> Cell -> Prop :=
| effect_none op x : opEffect op x x
| effect_value sheet addr grid v x :
    opEffect (OpSetValues sheet addr grid) x (set_content (Literal v) x)
| effect_formula sheet addr grid f x :
    opEffect (OpSetFormulas sheet addr grid) x (set_content (Formula f) x)
| effect_clear sheet addr applyTo x :
    opEffect (OpClear sheet addr applyTo) x (clear_cell applyTo x)
| effect_bold sheet addr b x :
    opEffect (OpSetBold sheet addr b) x (set_bold b x)
| effect_numberFormat sheet addr fmt x :
    opEffect (OpSetNumberFormat sheet addr fmt) x (set_numberFormat fmt x)
| effect_fill sheet addr color x :
    opEffect (OpSetFillColor sheet addr color) x (set_fillColor color x)
| effect_font sheet addr color x :
    opEffect (OpSetFontColor sheet addr color) x (set_fontColor color x).

(** The four formatting attributes of a cell. *)
Definition sameFormat (x y : Cell) : Prop :=
  numberFormat y = numberFormat x /\ bold y = bold x /\
  fontColor y = fontColor x /\ fillColor y = fillColor x.

(** What a [formatCell] call may do to a cell. *)
Definition formatted (format : ActionFormat.t) (x y : Cell) : Prop :=
  content y = content x /\
  (isTrue (ActionFormat.bold format) = false -> bold y = bold x) /\
  (nonEmpty (ActionFormat.numberFormat format) = None ->
     numberFormat y = numberFormat x) /\
  (nonEmpty (ActionFormat.bgColor format) = None ->
     fillColor y = fillColor x) /\
  (nonEmpty (ActionFormat.fontColor format) = None ->
     fontColor y = fontColor x) /\
  (bold x = true -> bold y = true).

End Frame.

Module Sparse.
Import Host Snapshot.

(** The record the extractor builds at used-range position
    ([row], [col]), if the cell there is not completely empty. *)
Definition recordAt (u : UsedRange.t) (row col : nat) : option CellRecord.t :=
  value ← gridAt (UsedRange.values u) row col;
  formula ← gridAt (UsedRange.formulas u) row col;
  nf ← gridAt (UsedRange.numberFormat u) row col;
  if is_blank value && is_blank formula then None
  else Some (CellRecord.mk (UsedRange.rowIndex u + row)
                           (UsedRange.columnIndex u + col)
                           value (or_else formula JNull) nf
                           (CellFormat.bold (UsedRange.getCell u row col))
                           (CellFormat.fontColor (UsedRange.getCell u row col))
                           (CellFormat.fillColor (UsedRange.getCell u row col))).

(** [rec] is the record of the cell at used-range position ([row],
    [col]), whose value or formula is non-empty: absolute
    coordinates, the cell's value, formula (or [null]), number format
    and the three formatting fields. *)
Definition nonEmptyAt (u : UsedRange.t) (row col : nat)
    (rec : CellRecord.t) : Prop :=
  exists value formula nf,
    gridAt (UsedRange.values u) row col = Some value /\
    gridAt (UsedRange.formulas u) row col = Some formula /\
    gridAt (UsedRange.numberFormat u) row col = Some nf /\
    (is_blank value = false \/ is_blank formula = false) /\
    rec = CellRecord.mk (UsedRange.rowIndex u + row)
                        (UsedRange.columnIndex u + col)
                        value (or_else formula JNull) nf
                        (CellFormat.bold (UsedRange.getCell u row col))
                        (CellFormat.fontColor (UsedRange.getCell u row col))
                        (CellFormat.fillColor (UsedRange.getCell u row col)).

Definition coordinates (rec : CellRecord.t) : nat * nat :=
  (CellRecord.row rec, CellRecord.col rec).

(** [cells] holds exactly the records of the non-empty cells of the
    used range, each once. *)
Definition sparse (u : UsedRange.t) (cells : list CellRecord.t) : Prop :=
  (forall rec,
      rec ∈ cells <->
      exists row col,
        row < UsedRange.rowCount u /\ col < UsedRange.columnCount u /\
        nonEmptyAt u row col rec) /\
  NoDup (coordinates <$> cells).

End Sparse.

Module Demo.
Import Host Executor.

(** A sheet with values only in B2 and D4, seen through the used
    range A1:D4 and through the used range B2:D4. *)
Definition noValue : JsVal := JStr "".

Definition plain (_ _ : nat) : CellFormat.t :=
  CellFormat.mk false "#000000" "#FFFFFF".

Definition general (rows cols : nat) : list (list JsVal) :=
  replicate rows (replicate cols (JStr "General")).

Definition contentA1D4 : list (list JsVal) :=
  [ [noValue; noValue; noValue; noValue];
    [noValue; JNum 10; noValue; noValue];
    [noValue; noValue; noValue; noValue];
    [noValue; noValue; noValue; JStr "total"] ].

Definition usedA1D4 : UsedRange.t :=
  UsedRange.mk contentA1D4 contentA1D4 (general 4 4) "Sheet1!A1:D4"
               4 4 0 0 plain.

Definition contentB2D4 : list (list JsVal) :=
  [ [JNum 10; noValue; noValue];
    [noValue; noValue; noValue];
    [noValue; noValue; JStr "total"] ].

Definition usedB2D4 : UsedRange.t :=
  UsedRange.mk contentB2D4 contentB2D4 (general 3 3) "Sheet1!B2:D4"
               3 3 1 1 plain.


(** A reading of plain A1-style addresses ("B2", "A1:C2"), for the
    worked examples. *)
Definition cellRef (s : string) : option (nat * nat) :=
  match cornerOf s with
  | Normal (col, row) =>
      if (1 <=? row)%Z && (1 <=? colToNum col)%Z
      then Some (Z.to_nat (row - 1), Z.to_nat (colToNum col - 1))
      else None
  | Throw _ => None
  end.

Definition resolve (addr : string) : option Rect :=
  match split ":" addr with
  | [one] =>
      '(r, c) ← cellRef one; Some (mkRect r c 1 1)
  | [first; last] =>
      '(r0, c0) ← cellRef first;
      '(r1, c1) ← cellRef last;
      if ((r0 <=? r1) && (c0 <=? c1))%nat
      then Some (mkRect r0 c0 (r1 - r0 + 1) (c1 - c0 + 1))
      else None
  | _ => None
  end.

(** A sheet whose every cell holds 1, bold, red on yellow. *)
Definition loud : Cell := mkCell (Literal (JNum 1)) "0.00" true "#FF0000" "#FFFF00".

Definition sheet1 : Sheet := fun _ _ => loud.

Definition book : gmap string Sheet := {[ "Sheet1" := sheet1 ]}.

Definition grid2x2 : list (list JsVal) :=
  [[JNum 1; JNum 2]; [JNum 3; JNum 4]].

Definition formulas2x2 : list (list string) :=
  [["=1"; "=2"]; ["=3"; "=4"]].

Definition grid2x3 : list (list JsVal) :=
  [[JNum 1; JNum 2; JNum 3]; [JNum 4; JNum 5; JNum 6]].

(** valid, mismatched, valid *)
Definition batch : list Action :=
  [ setCellValue "Sheet1" "A1" (JNum 7);
    setRangeValues "Sheet1" "A1:C2" grid2x2;
    setCellValue "Sheet1" "B5" (JStr "never") ].

Definition unbold : ActionFormat.t :=
  ActionFormat.mk (Some false) None (Some "") None.

End Demo.

(* ===================================================================== *)
(** ** Vocabulary: the characters of an address *)
(* ===================================================================== *)

Module Chars.

(** Every character of [s] is in the class [p]. *)
Fixpoint allOf (p : ascii -> bool) (s : string) : bool :=
  match s with
  | EmptyString => true
  | String ch rest => p ch && allOf p rest
  end.

(** No character of [s] is in the class [p]. *)
Fixpoint noneOf (p : ascii -> bool) (s : string) : bool :=
  match s with
  | EmptyString => true
  | String ch rest => negb (p ch) && noneOf p rest
  end.

(** [s] is empty or starts outside the class [p]. *)
Definition stopsAt (p : ascii -> bool) (s : string) : bool :=
  match s with
  | EmptyString => true
  | String ch _ => negb (p ch)
  end.

(** How often [ch] occurs in [s]. *)
Fixpoint occurrences (ch : ascii) (s : string) : nat :=
  match s with
  | EmptyString => 0
  | String c rest => (if Ascii.eqb c ch then 1 else 0) + occurrences ch rest
  end.

(** [pieces.join(sep)] *)
Fixpoint join (sep : ascii) (pieces : list string) : string :=
  match pieces with
  | [] => EmptyString
  | [piece] => piece
  | piece :: rest => piece ++ String sep (join sep rest)
  end.


End Chars.

(* ===================================================================== *)
(** ** Vocabulary: what an action means to write *)
(* ===================================================================== *)

Module Intent.
Import Host Executor.

(** [action.sheet] *)
Definition sheetOf (action : Action) : string :=
  match action with
  | setCellValue sheet _ _ | setFormula sheet _ _
  | setRangeValues sheet _ _ | setRangeFormulas sheet _ _
  | clearRange sheet _ | formatCell sheet _ _ | otherAction _ sheet => sheet
  end.

(** The operations an action queues when its [try] body runs to the
    end. *)
Definition writes (action : Action) : list Op :=
  match action with
  | setCellValue sheet cell value =>
      [OpGetItem sheet; OpGetRange sheet cell; OpSetValues sheet cell [[value]]]
  | setFormula sheet cell formula =>
      [OpGetItem sheet; OpGetRange sheet cell; OpSetFormulas sheet cell [[formula]]]
  | setRangeValues sheet range values =>
      [OpGetItem sheet; OpGetRange sheet range; OpSetValues sheet range values]
  | setRangeFormulas sheet range formulas =>
      [OpGetItem sheet; OpGetRange sheet range; OpSetFormulas sheet range formulas]
  | clearRange sheet range =>
      [OpGetItem sheet; OpGetRange sheet range; OpClear sheet range ClearContents]
  | formatCell sheet cell format =>
      [OpGetItem sheet; OpGetRange sheet cell]
      ++ (if isTrue (ActionFormat.bold format)
          then [OpSetBold sheet cell true] else [])
      ++ match nonEmpty (ActionFormat.numberFormat format) with
         | Some fmt => [OpSetNumberFormat sheet cell fmt] | None => [] end
      ++ match nonEmpty (ActionFormat.bgColor format) with
         | Some color => [OpSetFillColor sheet cell color] | None => [] end
      ++ match nonEmpty (ActionFormat.fontColor format) with
         | Some color => [OpSetFontColor sheet cell color] | None => [] end
  | otherAction _ sheet => [OpGetItem sheet]
  end.

(** Actions that write values or formulas, or clear them. *)
Definition writesContent (action : Action) : bool :=
  match action with
  | formatCell _ _ _ | otherAction _ _ => false
  | _ => true
  end.

(** [formatCell] actions. *)
Definition writesFormat (action : Action) : bool :=
  match action with
  | formatCell _ _ _ => true
  | _ => false
  end.

Definition isFailureLog (entry : LogEntry) : bool :=
  match entry with
  | LogActionFailed _ _ => true
  | _ => false
  end.

(** The sheet after a one-cell payload [[value]] is written over the
    rectangle [rc]. *)
Definition written (rc : Rect) (value : JsVal) (sh : Sheet) : Sheet :=
  fun r c =>
    if inRect rc r c then
      match gridAt [[value]] (r - top rc) (c - left rc) with
      | Some a => set_content (Literal a) (sh r c)
      | None => sh r c
      end
    else sh r c.

End Intent.

(* ===================================================================== *)
(** ** Vocabulary: reading order of a sheet *)
(* ===================================================================== *)

Module Reading.
Import Snapshot Sparse.

(** Row-major order on coordinates: an earlier row, or the same row
    and an earlier column. *)
Definition before (a b : nat * nat) : Prop :=
  a.1 < b.1 \/ (a.1 = b.1 /\ a.2 < b.2).

(** Every record of [cells] comes before the next one. *)
Fixpoint ascending (cells : list CellRecord.t) : Prop :=
  match cells with
  | [] => True
  | rec :: rest =>
      Forall (fun later => before (coordinates rec) (coordinates later)) rest /\
      ascending rest
  end.

(** The record lies in the used range, at absolute coordinates, and
    its formula is [null] or truthy. *)
Definition wellPlaced (u : UsedRange.t) (rec : CellRecord.t) : Prop :=
  UsedRange.rowIndex u <= CellRecord.row rec
    < UsedRange.rowIndex u + UsedRange.rowCount u /\
  UsedRange.columnIndex u <= CellRecord.col rec
    < UsedRange.columnIndex u + UsedRange.columnCount u /\
  (CellRecord.formula rec = JNull \/ truthy (CellRecord.formula rec) = true).

(** The state of the two loops when the cell at ([row], [col]) is
    about to be visited. *)
Definition upTo (u : UsedRange.t) (row col : nat)
    (cells : list CellRecord.t) : Prop :=
  ascending cells /\
  Forall (wellPlaced u) cells /\
  Forall (fun rec => before (coordinates rec)
                       (UsedRange.rowIndex u + row, UsedRange.columnIndex u + col))
         cells /\
  length cells <= row * UsedRange.columnCount u + col.

End Reading.

Module Demo2.

(** A used range of 2x2 blank cells. *)
Definition blanks : list (list JsVal) :=
  [[JStr ""; JStr ""]; [JNull; JStr ""]].

Definition usedBlank : UsedRange.t :=
  UsedRange.mk blanks blanks (Demo.general 2 2) "Sheet3!A1:B2" 2 2 0 0 Demo.plain.

End Demo2.

(* ===================================================================== *)
(** ** The chat pane: [sendMessage] *)
(* ===================================================================== *)

Module Chat.
Import Host Executor Snapshot.

(** [interface Message] *)
Inductive Role : Type := user | assistant.

Record Message : Type := mkMessage {
  role : Role;
  content : string
}.

(** [interface PdfSession] *)
Record PdfSession : Type := mkSession {
  sessionId : string;
  filename : string;
  chunks : Z;
  uploadedAt : string;
  summary : string
}.

(** The component state that [sendMessage] reads and sets. *)
Record ChatState : Type := mkState {
  messages : list Message;
  input : string;
  loading : bool;
  agentMode : bool
}.

(** The body of the POST to [/api/chat]. *)
Record Payload : Type := mkPayload {
  message : string;
  history : list Message;
  sessionIds : list string;
  modelData : gmap string SheetSnapshot;
  payloadAgentMode : bool
}.

(** [parsedData]: its [response] field (absent, a string, or another
    JSON value) and its [actions] field. *)
Inductive ResponseField : Type :=
| NoResponse
| TextResponse (text : string)
| OtherResponse (value : JsVal).

Record ParsedData : Type := mkParsed {
  response : ResponseField;
  actions : option (list Action)
}.

(** [response.data]: already an object, or a string still to parse. *)
Inductive ResponseData : Type :=
| DataObject (data : ParsedData)
| DataString (text : string).

(** [error.response]: the status and the two fields of its body that
    the handler reads. *)
Record HttpError : Type := mkHttpError {
  status : Z;
  detail : option string;
  dataMessage : option string
}.

(** What the [catch] block looks at in the error it caught. *)
Record Caught : Type := mkCaught {
  errorResponse : option HttpError;
  errorRequest : bool;
  errorMessage : string
}.

(** How the POST settles. *)
Inductive Reply : Type :=
| Replied (data : ResponseData)
| Rejected (error : Caught).

(** [hay.includes(needle)] *)
Fixpoint startsWith (needle hay : string) : bool :=
  match needle, hay with
  | EmptyString, _ => true
  | String n needle', String h hay' => Ascii.eqb n h && startsWith needle' hay'
  | String _ _, EmptyString => false
  end.

Fixpoint includes (needle hay : string) : bool :=
  startsWith needle hay ||
  match hay with
  | EmptyString => false
  | String _ hay' => includes needle hay'
  end.

(** [a || b] on two optional strings, and the truthiness of the
    result. *)
Definition orString (a b : option string) : option string :=
  match a with
  | Some s => if String.eqb s "" then b else a
  | None => b
  end.

Definition orDefault (a : option string) (fallback : string) : string :=
  match a with
  | Some s => if String.eqb s "" then fallback else s
  | None => fallback
  end.

(** [if (x)] on an optional string. *)
Definition truthyString (a : option string) : bool :=
  match a with
  | Some s => negb (String.eqb s "")
  | None => false
  end.

(** The message the [catch] block of [sendMessage] builds. *)
Definition errorText (error : Caught) : string :=
  match errorResponse error with
  | Some r =>
      let detail := orString (detail r) (dataMessage r) in
      if (status r =? 500)%Z && truthyString detail then
        let d := default "" detail in
        if includes "API key" d || includes "authentication" d
           || includes "Unauthorized" d then
          "🔑 OpenAI API Key Error: Invalid or missing API key. Check backend .env file."
        else if includes "rate limit" d || includes "quota" d then
          "⏱️ OpenAI Rate Limit: Too many requests or quota exceeded. Wait and try again."
        else if includes "timeout" d || includes "timed out" d then
          "⏱️ OpenAI Timeout: Request took too long. Try a simpler question."
        else "🤖 OpenAI API Error: " ++ d
      else if (status r =? 400)%Z then
        "❌ Bad Request: " ++ orDefault detail "Invalid request format"
      else
        "❌ Backend Error (" ++ pretty (status r) ++ "): "
          ++ orDefault detail "Unknown error"
  | None =>
      if errorRequest error then
        "🔌 Network Error: Cannot reach backend. Is the backend server running on https://localhost:3001?"
      else "❌ Error: " ++ errorMessage error
  end.

(** The message of the [Error] thrown on a dimension mismatch. *)
Definition mismatchMessage (range : string)
    (expectedRows expectedCols actualRows actualCols : Z) : string :=
  "Dimension mismatch: range " ++ range ++ " expects "
    ++ pretty expectedRows ++ "x" ++ pretty expectedCols
    ++ ", but values are " ++ pretty actualRows ++ "x" ++ pretty actualCols.

(** What one [sendMessage] call leaves behind: the state, the request
    it sent (if it got that far), what it did with the actions, and
    the workbook. *)
Record Turn : Type := mkTurn {
  state : ChatState;
  sent : option Payload;
  dispatched : Dispatch;
  workbook : gmap string Sheet
}.

Section WithRuntime.

(** The runtime's part: [String.prototype.trim], [JSON.parse] (the
    object it yields, [None] when it throws), [JSON.stringify] on a
    value and on the parsed object, the message of an error raised by
    the runtime or the host, and the host's reading of addresses. *)
Variable trim : string -> string.
Variable parseJSON : string -> option ParsedData.
Variable stringifyValue : JsVal -> string.
Variable stringifyData : ParsedData -> string.
Variable runtimeMessage : Exn -> string.
Variable resolve : string -> option Rect.

(** [error.message] of what [extractModelSnapshot] or
    [executeActions] throws; such errors have neither [response] nor
    [request]. *)
Definition thrown (e : Exn) : Caught :=
  mkCaught None false
    match e with
    | DimensionMismatch range rows cols actualRows actualCols =>
        mismatchMessage range rows cols actualRows actualCols
    | _ => runtimeMessage e
    end.

(** "Handle if response.data is a string instead of object" *)
Definition parsedOf (data : ResponseData) : ParsedData :=
  match data with
  | DataObject parsed => parsed
  | DataString text =>
      match parseJSON text with
      | Some parsed => parsed
      | None => mkParsed (TextResponse text) (Some [])
      end
  end.

(** "Ensure we always have a string for content" *)
Definition responseText (parsed : ParsedData) : string :=
  match response parsed with
  | TextResponse text => text
  | OtherResponse value =>
      if truthy value then stringifyValue value else stringifyData parsed
  | NoResponse => stringifyData parsed
  end.

Definition say (text : string) (st : ChatState) : ChatState :=
  mkState (messages st ++ [mkMessage assistant text])
          (input st) (loading st) (agentMode st).

(** The [catch] block followed by the [finally] block. *)
Definition failed (error : Caught) (st : ChatState) : ChatState :=
  let st' := say (errorText error) st in
  mkState (messages st') (input st') false (agentMode st').

(** The [finally] block alone. *)
Definition settled (st : ChatState) : ChatState :=
  mkState (messages st) (input st) false (agentMode st).

(** [sendMessage], given the sessions prop, the worksheets as
    [extractModelSnapshot] finds them, the backend's answer to the
    request, and the workbook. *)
Definition sendMessage (st : ChatState) (sessions : list PdfSession)
    (items : list (string * UsedRange.t)) (backend : Payload -> Reply)
    (wb : gmap string Sheet) : Turn :=
  if String.eqb (trim (input st)) "" || loading st
  then mkTurn st None NoActions wb
  else
    let userMessage := mkMessage user (input st) in
    let currentInput := input st in
    let st1 := mkState (messages st ++ [userMessage]) "" true (agentMode st) in
    match extractModelSnapshot items with
    | Throw e => mkTurn (failed (thrown e) st1) None NoActions wb
    | Normal snapshot =>
        let payload :=
          mkPayload currentInput (messages st)
                    (map sessionId sessions) snapshot (agentMode st) in
        match backend payload with
        | Rejected error => mkTurn (failed error st1) (Some payload) NoActions wb
        | Replied data =>
            let parsed := parsedOf data in
            let st2 := say (responseText parsed) st1 in
            let d := sendMessage_actions resolve (agentMode st) (actions parsed) wb in
            match d with
            | Executed r =>
                match outcome r with
                | Throw e =>
                    mkTurn (failed (thrown e) st2) (Some payload) d (document r)
                | Normal _ => mkTurn (settled st2) (Some payload) d (document r)
                end
            | Ignored _ | NoActions => mkTurn (settled st2) (Some payload) d wb
            end
        end
    end.

End WithRuntime.

(** [App.addSession], with the clock's reading for [uploadedAt]. *)
Definition addSession (now : string) (id name : string) (count : Z)
    (text : string) (sessions : list PdfSession) : list PdfSession :=
  sessions ++ [mkSession id name count now text].

(** [App.removeSession] *)
Definition removeSession (id : string) (sessions : list PdfSession)
    : list PdfSession :=
  List.filter (fun s => negb (String.eqb (sessionId s) id)) sessions.

End Chat.

(* ===================================================================== *)
(** ** The error checker pane: [runErrorCheck] *)
(* ===================================================================== *)

Module Check.
Import ErrorChecker.

(** One sheet of [extractModelData]: the used range's grids as
    loaded. *)
Record DenseSheet : Type := mkDense {
  values : list (list JsVal);
  formulas : list (list JsVal);
  address : string
}.

(** [extractModelData] *)
Fixpoint extractInto (items : list (string * UsedRange.t))
    (modelData : gmap string DenseSheet) : gmap string DenseSheet :=
  match items with
  | [] => modelData
  | (name, u) :: rest =>
      extractInto rest
        (<[name := mkDense (UsedRange.values u) (UsedRange.formulas u)
                           (UsedRange.address u)]> modelData)
  end.

Definition extractModelData (items : list (string * UsedRange.t))
    : gmap string DenseSheet :=
  extractInto items ∅.

(** The component state: [checking], [errors], [status]. *)
Record CheckState : Type := mkCheck {
  checking : bool;
  errors : list ErrorItem;
  status : string
}.

(** How the POST to [/api/check-errors] settles: with a body whose
    [errors] field is present or not, or with a rejection. *)
Inductive CheckReply : Type :=
| Checked (errorsField : option (list ErrorItem))
| CheckRejected.

(** [runErrorCheck].  It first sets [checking], [status] and [errors]
    anew, so the state it ends in does not depend on the one it
    started from. *)
Definition runErrorCheck (items : list (string * UsedRange.t))
    (backend : gmap string DenseSheet -> CheckReply) : CheckState :=
  match backend (extractModelData items) with
  | Checked (Some found) =>
      mkCheck false found
        (if (length found =? 0)%nat then "No errors found! Model looks good."
         else "Found " ++ pretty (length found) ++ " issue(s)")
  | Checked None | CheckRejected =>
      mkCheck false [] "Failed to check errors. Please try again."
  end.

(** The class of the status banner:
    [errors.length === 0 ? 'success' : 'info']. *)
Definition bannerClass (st : CheckState) : string :=
  if (length (errors st) =? 0)%nat then "success" else "info".

End Check.

(* ===================================================================== *)
(** ** The upload pane: [insertModelIntoExcel] and [handleUpload] *)
(* ===================================================================== *)

Module Upload.

(** How the code designates a range. *)
Inductive RangeRef : Type :=
| Resized (sheet addr : string) (deltaRows deltaCols : Z)
    (* sheet.getRange(addr).getResizedRange(deltaRows, deltaCols) *)
| ByNumbers (sheet : string) (a b c d : Z)
    (* sheet.getRange(a, b, c, d) *)
| ByAddress (sheet addr : string)
    (* sheet.getRange(addr) *)
| Used (sheet : string).
    (* sheet.getUsedRange() *)

(** What [insertModelIntoExcel] queues. *)
Inductive UploadOp : Type :=
| OpAddSheet (name : string)
| OpValues (range : RangeRef) (grid : list (list JsVal))
| OpFormulas (range : RangeRef) (grid : list (list JsVal))
| OpAutofit (range : RangeRef)
| OpBold (range : RangeRef) (b : bool)
| OpFill (range : RangeRef) (color : string)
| OpFontColor (range : RangeRef) (color : string).

(** [modelData]: each grid present or absent. *)
Record ModelData : Type := mkModel {
  assumptions : option (list (list JsVal));
  financials : option (list (list JsVal));
  dcfCalculations : option (list (list JsVal))
}.

(** What a call leaves: how it settled, the operations that reached a
    sync, and those queued but never synced. *)
Record UploadRun : Type := mkRun {
  outcome : Outcome unit;
  committed : list UploadOp;
  abandoned : list UploadOp
}.

(** [getItemOrNullObject(name)], sync, and [add(name)] when the sheet
    is missing. *)
Definition ensureSheet (names : gset string) (name : string) : list UploadOp :=
  if decide (name ∈ names) then [] else [OpAddSheet name].

(** "Insert assumptions" / "Insert financial data": [grid[0].length]
    throws on an empty grid. *)
Definition insertGrid (sheet : string) (grid : option (list (list JsVal)))
    : Outcome (list UploadOp) :=
  match grid with
  | None => Normal []
  | Some [] => Throw NullDeref
  | Some (first :: rest) =>
      let range := Resized sheet "A1"
                     (Z.of_nat (length (first :: rest)) - 1)
                     (Z.of_nat (length first) - 1) in
      Normal [OpValues range (first :: rest); OpAutofit range]
  end.

(** [typeof value === 'string' && value.startsWith('=')] *)
Definition isFormula (value : JsVal) : bool :=
  match value with
  | JStr s => Chat.startsWith "=" s
  | _ => false
  end.

(** The body of the inner loop at ([i], [j]). *)
Definition cellWrite (sheet : string) (i j : nat) (value : JsVal) : UploadOp :=
  let cell := ByNumbers sheet (Z.of_nat i + 1) (Z.of_nat j + 1) 1 1 in
  if isFormula value then OpFormulas cell [[value]] else OpValues cell [[value]].

(** The two loops over [dcfCalculations]. *)
Definition gridWrites (sheet : string) (grid : list (list JsVal)) : list UploadOp :=
  mjoin (imap (fun i row => imap (fun j value => cellWrite sheet i j value) row) grid).

(** "Insert DCF calculations with formulas" *)
Definition insertDcf (sheet : string) (grid : option (list (list JsVal)))
    : Outcome (list UploadOp) :=
  match grid with
  | None => Normal []
  | Some [] => Throw NullDeref
  | Some (first :: rest) =>
      Normal (gridWrites sheet (first :: rest) ++ [OpAutofit (Used sheet)])
  end.

(** "Format headers" *)
Definition formatHeaders (sheets : list string) : list UploadOp :=
  flat_map (fun sheet =>
              [ OpBold (ByAddress sheet "1:1") true;
                OpFill (ByAddress sheet "1:1") "#667eea";
                OpFontColor (ByAddress sheet "1:1") "white" ])
           sheets.

(** [insertModelIntoExcel] on a workbook with the sheets [names].  The
    sync after each lookup carries the [add] queued after the lookup
    before it; the last [add] and every write wait for the final
    sync. *)
Definition insertModelIntoExcel (names : gset string) (modelData : ModelData)
    : UploadRun :=
  let early := ensureSheet names "Assumptions" ++ ensureSheet names "Financials" in
  let late := ensureSheet names "DCF Calculation" in
  match insertGrid "Assumptions" (assumptions modelData) with
  | Throw e => mkRun (Throw e) early late
  | Normal a =>
      match insertGrid "Financials" (financials modelData) with
      | Throw e => mkRun (Throw e) early (late ++ a)
      | Normal f =>
          match insertDcf "DCF Calculation" (dcfCalculations modelData) with
          | Throw e => mkRun (Throw e) early (late ++ a ++ f)
          | Normal d =>
              mkRun (Normal tt)
                (early ++ late ++ a ++ f ++ d
                   ++ formatHeaders ["Assumptions"; "Financials"; "DCF Calculation"])
                []
          end
      end
  end.

(** The status banner of the upload pane. *)
Inductive StatusType : Type := success | error | info.

(** The component state, with a flag for whether [onModelCreated] was
    called. *)
Record UploadState : Type := mkUpload {
  file : option string;
  uploading : bool;
  status : option (StatusType * string);
  modelCreated : bool
}.

(** [handleFileChange]: the selected file, if any, as (name, type). *)
Definition handleFileChange (selected : option (string * string))
    (st : UploadState) : UploadState :=
  match selected with
  | Some (name, type) =>
      if String.eqb type "application/pdf"
      then mkUpload (Some name) (uploading st) None (modelCreated st)
      else mkUpload (file st) (uploading st)
             (Some (error, "Please select a valid PDF file")) (modelCreated st)
  | None =>
      mkUpload (file st) (uploading st)
        (Some (error, "Please select a valid PDF file")) (modelCreated st)
  end.

(** [handleUpload]: the backend's model, or [None] when the POST
    rejects. *)
Definition handleUpload (names : gset string) (backend : option ModelData)
    (st : UploadState) : UploadState * option UploadRun :=
  match file st with
  | None => (st, None)
  | Some _ =>
      match backend with
      | None =>
          (mkUpload (file st) false
             (Some (error, "Failed to process PDF. Please try again."))
             (modelCreated st), None)
      | Some modelData =>
          let run := insertModelIntoExcel names modelData in
          match outcome run with
          | Normal _ =>
              (mkUpload (file st) false
                 (Some (success, "DCF model created successfully!")) true,
               Some run)
          | Throw _ =>
              (mkUpload (file st) false
                 (Some (error, "Failed to process PDF. Please try again."))
                 (modelCreated st), Some run)
          end
      end
  end.

End Upload.

Module Demo3.
Import Executor Chat.

(** ASCII white space, and a [trim] for it. *)
Definition isSpace (ch : ascii) : bool :=
  ((9 <=? charCode ch) && (charCode ch <=? 13) || (charCode ch =? 32))%Z.

Fixpoint trimStart (s : string) : string :=
  match s with
  | EmptyString => EmptyString
  | String ch rest => if isSpace ch then trimStart rest else s
  end.

Fixpoint trimEnd (s : string) : string :=
  match s with
  | EmptyString => EmptyString
  | String ch rest =>
      match trimEnd rest with
      | EmptyString => if isSpace ch then EmptyString else String ch EmptyString
      | kept => String ch kept
      end
  end.

Definition trim (s : string) : string := trimEnd (trimStart s).

Definition noParse (_ : string) : option ParsedData := None.
Definition noText {A} (_ : A) : string := "".

Definition asking : ChatState :=
  mkState [mkMessage assistant "Hello"] "fill A1:C2" false true.

Definition agentReply (_ : Payload) : Reply :=
  Replied (DataObject (mkParsed (TextResponse "Done.") (Some Demo.batch))).

Definition textReply (_ : Payload) : Reply :=
  Replied (DataString "not json").

Definition sheets : list (string * UsedRange.t) :=
  [("Sheet1", Demo.usedA1D4)].

Definition emptyModel : Upload.ModelData :=
  Upload.mkModel (Some [[JStr "Rate"; JNum 5]]) (Some []) None.


End Demo3.

(* ===================================================================== *)
(** * Properties *)
(* ===================================================================== *)

(** ** Column letters *)

Section ColumnLetters.

Local Open Scope Z_scope.

Lemma colToNum_from_shift (col : string) (num : Z) :
  colToNum_from num col
  = num * 26 ^ Z.of_nat (String.length col) + colToNum col.
Proof.
  revert num. induction col as [|ch rest IH]; intros num.
  - cbn. lia.
  - unfold colToNum. cbn [colToNum_from String.length].
    rewrite (IH (num * 26 + _)), (IH (0 * 26 + _)).
    rewrite Nat2Z.inj_succ, Z.pow_succ_r by lia. ring.
Qed.

Lemma colToNum_cons (ch : ascii) (rest : string) :
  colToNum (String ch rest)
  = (charCode ch - 64) * 26 ^ Z.of_nat (String.length rest) + colToNum rest.
Proof.
  unfold colToNum at 1. cbn [colToNum_from].
  rewrite colToNum_from_shift. ring.
Qed.

(** Appending one letter is one more base-26 digit. *)
Lemma colToNum_snoc (col : string) (ch : ascii) :
  colToNum (col ++ String ch EmptyString)%string
  = colToNum col * 26 + (charCode ch - 64).
Proof.
  unfold colToNum. generalize 0 as num.
  induction col as [|c rest IH]; intros num; cbn; [reflexivity | apply IH].
Qed.

Lemma charCode_letter (r : Z) :
  0 <= r < 26 -> charCode (ascii_of_nat (Z.to_nat (65 + r))) = 65 + r.
Proof.
  intros Hr. unfold charCode.
  rewrite nat_ascii_embedding by lia. lia.
Qed.

Lemma numToCol_fuel_value (fuel : nat) :
  forall (n : Z) (acc : string),
    0 <= n <= Z.of_nat fuel ->
    colToNum (numToCol_fuel fuel n acc)
    = n * 26 ^ Z.of_nat (String.length acc) + colToNum acc.
Proof.
  induction fuel as [|fuel IH]; intros n acc Hn; cbn [numToCol_fuel].
  - assert (n = 0) by lia. subst. lia.
  - destruct (Z.leb_spec n 0) as [Hle|Hgt].
    + assert (n = 0) by lia. subst. lia.
    + pose proof (Z.div_mod (n - 1) 26 ltac:(lia)) as Hdm.
      pose proof (Z.mod_pos_bound (n - 1) 26 ltac:(lia)) as Hr.
      assert (Hq : 0 <= (n - 1) / 26 <= Z.of_nat fuel).
      { split; [apply Z.div_pos; lia|].
        apply Z.le_trans with (n - 1); [|lia].
        apply Z.div_le_upper_bound; lia. }
      rewrite (IH _ _ Hq).
      rewrite colToNum_cons, charCode_letter by exact Hr.
      cbn [String.length]. rewrite Nat2Z.inj_succ, Z.pow_succ_r by lia.
      set (p := 26 ^ Z.of_nat (String.length acc)).
      set (q := (n - 1) / 26) in *. set (r := (n - 1) mod 26) in *.
      clearbody p q r. assert (Hn' : n = 26 * q + r + 1) by lia.
      rewrite Hn'. ring.
Qed.

(** Decoding the standard encoding of any positive number gives the
    number back. *)
Lemma colToNum_numToCol (n : Z) : 1 <= n -> colToNum (numToCol n) = n.
Proof.
  intros Hn. unfold numToCol.
  rewrite numToCol_fuel_value by lia. cbn. lia.
Qed.

(** Claim C6.  [colToNum] is a total function on strings that reads
    column letters as 1-indexed base-26 positional notation: it
    decodes "A" to 1, "Z" to 26 and "AA" to 27, every further letter
    is one more base-26 digit with A..Z worth 1..26, and for every n
    from 1 to 10000 decoding the standard column-letter encoding of n
    yields n. *)
Theorem colToNum_decodes_base26 (n : Z) (Hn : 1 <= n <= 10000) :
  colToNum "A" = 1 /\ colToNum "Z" = 26 /\ colToNum "AA" = 27 /\
  (forall (col : string) (ch : ascii),
      colToNum (col ++ String ch EmptyString)%string
      = colToNum col * 26 + (charCode ch - 64)) /\
  (forall col : string, exists num : Z, colToNum col = num) /\
  colToNum (numToCol n) = n.
Proof.
  repeat split; try reflexivity.
  - apply colToNum_snoc.
  - intros col. eexists. reflexivity.
  - apply colToNum_numToCol. lia.
Qed.

Lemma colToNum_decodes_base26_witness :
  1 <= 703 <= 10000 /\ colToNum (numToCol 703) = 703.
Proof.
  split; [lia|].
  apply (colToNum_decodes_base26 703). lia.
Defined.

End ColumnLetters.

(** ** The request context only grows *)

Section Appends.
Import Host Executor Batch.

Lemma appends_ret {A} (a : A) : appends (ret a).
Proof. intros [q l]. unfold ret. cbn. by rewrite !app_nil_r. Qed.

Lemma appends_throw {A} (e : Exn) : appends (@throw A e).
Proof. intros [q l]. unfold throw. cbn. by rewrite !app_nil_r. Qed.

Lemma appends_lift {A} (o : Outcome A) : appends (lift o).
Proof. intros [q l]. unfold lift. cbn. by rewrite !app_nil_r. Qed.

Lemma appends_queue (op : Op) : appends (queue op).
Proof. intros [q l]. unfold queue. cbn. by rewrite !app_nil_r. Qed.

Lemma appends_log (entry : LogEntry) : appends (log entry).
Proof. intros [q l]. unfold log. cbn. by rewrite !app_nil_r. Qed.

Lemma appends_bind {A B} (m : Exec A) (k : A -> Exec B) :
  appends m -> (forall a, appends (k a)) -> appends (bind m k).
Proof.
  intros Hm Hk ctx. unfold bind. rewrite (Hm ctx).
  destruct (m emptyContext) as [[a|e] [q l]]; cbn.
  - rewrite (Hk a (mkContext _ _)), (Hk a (mkContext q l)). cbn.
    by rewrite !app_assoc.
  - reflexivity.
Qed.

Lemma appends_tryCatch {A} (body : Exec A) (handler : Exn -> Exec A) :
  appends body -> (forall e, appends (handler e)) ->
  appends (tryCatch body handler).
Proof.
  intros Hm Hk ctx. unfold tryCatch. rewrite (Hm ctx).
  destruct (body emptyContext) as [[a|e] [q l]]; cbn.
  - reflexivity.
  - rewrite (Hk e (mkContext _ _)), (Hk e (mkContext q l)). cbn.
    by rewrite !app_assoc.
Qed.

Lemma appends_when (b : bool) (m : Exec unit) : appends m -> appends (when b m).
Proof. destruct b; cbn; [done | intros _; apply appends_ret]. Qed.

Lemma appends_whenSome (v : option string) (m : string -> Exec unit) :
  (forall s, appends (m s)) -> appends (whenSome v m).
Proof. destruct v; cbn; [done | intros _; apply appends_ret]. Qed.

Create HintDb appends discriminated.
Hint Resolve appends_ret appends_throw appends_lift appends_queue
  appends_log appends_when appends_whenSome : appends.

Ltac appends :=
  repeat first
    [ apply appends_bind; [|intros ?]
    | apply appends_tryCatch; [|intros ?]
    | apply appends_whenSome; intros ?
    | solve [auto with appends] ].

Lemma appends_checkDimensions range values :
  appends (checkDimensions range values).
Proof.
  unfold checkDimensions.
  destruct (split ":" range) as [|startCell [|endCell [|? ?]]];
    try apply appends_ret.
  apply appends_bind; [apply appends_lift|]. intros [startCol startRow].
  apply appends_bind; [apply appends_lift|]. intros [endCol endRow].
  apply appends_bind; [apply appends_log|]. intros _.
  destruct (_ || _); auto with appends.
Qed.

Lemma appends_applyAction action : appends (applyAction action).
Proof.
  destruct action; cbn [applyAction];
    try (appends; fail); try apply appends_queue.
  apply appends_bind; [apply appends_queue|]. intros _.
  apply appends_bind; [apply appends_checkDimensions|]. intros _.
  appends.
Qed.

Lemma applyAction_from action ctx :
  applyAction action ctx
  = (completion action,
     mkContext (pending ctx ++ queuedBy action)
               (console ctx ++ loggedBy action)).
Proof. apply appends_applyAction. Qed.

Lemma iteration_applies action ctx :
  applies action = true ->
  iteration action ctx
  = (Normal tt, mkContext (pending ctx ++ queuedBy action)
                          (console ctx ++ loggedBy action)).
Proof.
  unfold applies, iteration, tryCatch. intros H.
  rewrite applyAction_from.
  destruct (completion action) as [[]|]; [reflexivity | discriminate].
Qed.

Lemma iteration_throws action e ctx :
  completion action = Throw e ->
  iteration action ctx
  = (Throw e, mkContext (pending ctx ++ queuedBy action)
                        (console ctx ++ loggedBy action
                                     ++ [LogActionFailed action e])).
Proof.
  unfold iteration, tryCatch. intros H.
  rewrite applyAction_from, H. cbn. by rewrite app_assoc.
Qed.

Lemma forOf_all_apply actions : forall ctx,
  forallb applies actions = true ->
  forOf actions ctx
  = (Normal tt, mkContext (pending ctx ++ flat_map queuedBy actions)
                          (console ctx ++ flat_map loggedBy actions)).
Proof.
  induction actions as [|a rest IH]; intros [q l] Hall; cbn in *.
  - unfold ret. by rewrite !app_nil_r.
  - apply andb_true_iff in Hall as [Ha Hrest].
    unfold bind. rewrite (iteration_applies _ _ Ha), (IH _ Hrest). cbn.
    by rewrite !app_assoc.
Qed.

Lemma forOf_first_throw pre action e post : forall ctx,
  forallb applies pre = true ->
  completion action = Throw e ->
  forOf (pre ++ action :: post) ctx
  = (Throw e,
     mkContext (pending ctx ++ flat_map queuedBy pre ++ queuedBy action)
               (console ctx ++ flat_map loggedBy pre ++ loggedBy action
                            ++ [LogActionFailed action e])).
Proof.
  induction pre as [|a rest IH]; intros [q l] Hall He; cbn in *.
  - unfold bind. by rewrite (iteration_throws _ _ _ He).
  - apply andb_true_iff in Hall as [Ha Hrest].
    unfold bind. rewrite (iteration_applies _ _ Ha), (IH _ Hrest He). cbn.
    by rewrite !app_assoc.
Qed.

(** Either every action applies, or there is a first one that throws. *)
Lemma first_throw actions :
  forallb applies actions = false ->
  exists pre action e post,
    actions = pre ++ action :: post /\
    forallb applies pre = true /\ completion action = Throw e.
Proof.
  induction actions as [|a rest IH]; cbn; [discriminate|].
  destruct (applies a) eqn:Ha; cbn.
  - intros H. destruct (IH H) as (pre & b & e & post & -> & Hpre & He).
    exists (a :: pre), b, e, post. cbn. by rewrite Ha.
  - intros _. unfold applies in Ha.
    destruct (completion a) as [|e] eqn:He; [discriminate|].
    by exists [], a, e, rest.
Qed.

End Appends.

(** ** The executor *)

Section ExecutorFacts.
Import Host Executor Batch.

Variable resolve : string -> option Rect.

Lemma executeActions_all_apply actions wb :
  forallb applies actions = true ->
  let r := executeActions resolve actions wb in
  queued r = flat_map queuedBy actions /\
  synced r = true /\
  (outcome r, document r) = sync resolve (flat_map queuedBy actions) wb.
Proof.
  intros Hall. unfold executeActions.
  rewrite (forOf_all_apply _ _ Hall). cbn.
  destruct (sync resolve _ wb) as [[[]|e] wb']; cbn; auto.
Qed.

Lemma executeActions_first_throw pre action e post wb :
  forallb applies pre = true ->
  completion action = Throw e ->
  executeActions resolve (pre ++ action :: post) wb
  = mkResult (Throw e) wb
      (flat_map loggedBy pre ++ loggedBy action ++ [LogActionFailed action e])
      (flat_map queuedBy pre ++ queuedBy action)
      false.
Proof.
  intros Hpre He. unfold executeActions.
  by rewrite (forOf_first_throw _ _ _ _ _ Hpre He).
Qed.

(** Claim C2.  Actions are applied in the order supplied, and the
    loop is fail-fast: when the actions before index k apply and
    applying the action at index k throws, the call rejects with that
    error, the queue holds what the actions before k queued, in
    order, followed by what action k queued before throwing, the
    failure is logged for action k, and the actions after k play no
    part (the result is that of the batch cut after k).  When no
    action throws, the queue handed to [sync] is the concatenation of
    what each action queues, in list order. *)
Theorem executeActions_fail_fast
    (pre post : list Action) (action : Action) (e : Exn)
    (wb : gmap string Sheet)
    (Hpre : forallb applies pre = true)
    (Hthrow : completion action = Throw e) :
  let r := executeActions resolve (pre ++ action :: post) wb in
  (pre ++ action :: post) !! length pre = Some action /\
  outcome r = Throw e /\
  queued r = flat_map queuedBy pre ++ queuedBy action /\
  last (consoleOut r) = Some (LogActionFailed action e) /\
  synced r = false /\
  r = executeActions resolve (pre ++ [action]) wb /\
  (forall actions,
      forallb applies actions = true ->
      queued (executeActions resolve actions wb) = flat_map queuedBy actions /\
      synced (executeActions resolve actions wb) = true).
Proof.
  cbn zeta.
  rewrite !(executeActions_first_throw _ _ _ _ _ Hpre Hthrow). cbn.
  split_and!; try reflexivity.
  - by rewrite lookup_app_r, Nat.sub_diag.
  - by rewrite !app_assoc, last_snoc.
  - intros actions Hall.
    destruct (executeActions_all_apply actions wb Hall) as (? & ? & _); auto.
Qed.

(** Claim C8.  [context.sync()] is called exactly when every action
    of the batch applied without throwing; when some action throws,
    the barrier is never invoked, the call rejects, and the workbook
    is the one the call started from. *)
Theorem sync_only_after_whole_batch
    (actions : list Action) (wb : gmap string Sheet) :
  let r := executeActions resolve actions wb in
  synced r = forallb applies actions /\
  (forallb applies actions = false ->
     document r = wb /\ exists e, outcome r = Throw e) /\
  (forallb applies actions = true ->
     (outcome r, document r) = sync resolve (queued r) wb).
Proof.
  cbn zeta. destruct (forallb applies actions) eqn:Hall.
  - destruct (executeActions_all_apply actions wb Hall) as (Hq & Hs & Hd).
    split_and!; [done | discriminate | by rewrite Hq].
  - destruct (first_throw actions Hall) as (pre & a & e & post & -> & Hpre & He).
    rewrite (executeActions_first_throw _ _ _ _ _ Hpre He). cbn.
    split_and!; [done | eauto | discriminate].
Qed.

(** Claim C4.  For a response carrying a non-empty action list,
    [sendMessage] runs [executeActions] on it when agent mode is on;
    when agent mode is off it only logs how many actions it ignores
    and the workbook is untouched.  The executor is reached on no
    other path: a dispatch that executed implies agent mode. *)
Theorem sendMessage_agent_gate
    (agentMode : bool) (actions : list Action) (wb : gmap string Sheet)
    (Hnonempty : actions <> []) :
  (agentMode = true ->
     sendMessage_actions resolve agentMode (Some actions) wb
     = Executed (executeActions resolve actions wb)) /\
  (agentMode = false ->
     sendMessage_actions resolve agentMode (Some actions) wb
     = Ignored (length actions) /\
     documentAfter (sendMessage_actions resolve agentMode (Some actions) wb) wb
     = wb) /\
  (forall mode response r,
      sendMessage_actions resolve mode response wb = Executed r ->
      mode = true /\
      exists batch, response = Some batch /\ batch <> [] /\
                    r = executeActions resolve batch wb).
Proof.
  destruct actions as [|a rest]; [done|].
  split_and!.
  - intros ->. reflexivity.
  - intros ->. split; reflexivity.
  - intros mode response r H. unfold sendMessage_actions in H.
    destruct response as [[|b batch]|]; cbn in H; try discriminate.
    destruct mode; [|discriminate].
    split; [reflexivity|]. exists (b :: batch). by inversion H.
Qed.

(** *** Dimension check *)

Lemma split_no_colon (s : string) : hasColon s = false -> split ":" s = [s].
Proof.
  induction s as [|ch rest IH]; cbn; [done|].
  intros H. apply orb_false_iff in H as [Hch Hrest].
  by rewrite Hch, (IH Hrest).
Qed.

(** Claim C9.  A [setRangeValues] action whose address holds no colon
    goes through no dimension check, whatever the payload: nothing is
    compared or logged, the action cannot throw, and the payload is
    queued as it came and handed to [context.sync()]. *)
Theorem setRangeValues_no_colon_unchecked
    (sheet range : string) (values : list (list JsVal))
    (wb : gmap string Sheet)
    (Hcolon : hasColon range = false) :
  let write := [OpGetItem sheet; OpGetRange sheet range;
                OpSetValues sheet range values] in
  let r := executeActions resolve [setRangeValues sheet range values] wb in
  checkDimensions range values = ret tt /\
  applyAction (setRangeValues sheet range values) emptyContext
  = (Normal tt, mkContext write []) /\
  queued r = write /\
  synced r = true /\
  (outcome r, document r) = sync resolve write wb.
Proof.
  cbn zeta.
  assert (Hcheck : checkDimensions range values = ret tt).
  { unfold checkDimensions. by rewrite (split_no_colon _ Hcolon). }
  assert (Happly : applyAction (setRangeValues sheet range values) emptyContext
                   = (Normal tt,
                      mkContext [OpGetItem sheet; OpGetRange sheet range;
                                 OpSetValues sheet range values] [])).
  { cbn [applyAction]. rewrite Hcheck. reflexivity. }
  assert (Hall : forallb applies [setRangeValues sheet range values] = true).
  { cbn. unfold applies, completion. by rewrite Happly. }
  destruct (executeActions_all_apply _ wb Hall) as (Hq & Hs & Hd).
  cbn [flat_map] in Hq, Hd. rewrite app_nil_r in Hq, Hd.
  unfold queuedBy in Hq, Hd. rewrite Happly in Hq, Hd.
  split_and!; [exact Hcheck | exact Happly | exact Hq | exact Hs | exact Hd].
Qed.

(** On a two-corner address both of whose corners parse,
    [setRangeValues] throws exactly when the payload's outer length
    or first-row length differs from what the address implies, and
    then nothing is synced. *)
Lemma setRangeValues_checked
    (sheet range startCell endCell startCol endCol : string)
    (startRow endRow : Z) (values : list (list JsVal))
    (wb : gmap string Sheet) :
  split ":" range = [startCell; endCell] ->
  cornerOf startCell = Normal (startCol, startRow) ->
  cornerOf endCell = Normal (endCol, endRow) ->
  let rows := (endRow - startRow + 1)%Z in
  let cols := (colToNum endCol - colToNum startCol + 1)%Z in
  let r := executeActions resolve [setRangeValues sheet range values] wb in
  (shapeMatches rows cols values = true ->
     completion (setRangeValues sheet range values) = Normal tt /\
     queued r = [OpGetItem sheet; OpGetRange sheet range;
                 OpSetValues sheet range values] /\
     synced r = true) /\
  (shapeMatches rows cols values = false ->
     outcome r = Throw (DimensionMismatch range rows cols
                          (Z.of_nat (length values)) (firstRowLength values)) /\
     synced r = false /\
     document r = wb).
Proof.
  intros Hsplit Hstart Hend. cbn zeta.
  set (a := setRangeValues sheet range values).
  set (rows := (endRow - startRow + 1)%Z).
  set (cols := (colToNum endCol - colToNum startCol + 1)%Z).
  set (seen := LogRange range rows cols (Z.of_nat (length values))
                        (firstRowLength values)).
  assert (Hrun : applyAction a emptyContext
                 = if shapeMatches rows cols values
                   then (Normal tt,
                         mkContext [OpGetItem sheet; OpGetRange sheet range;
                                    OpSetValues sheet range values] [seen])
                   else (Throw (DimensionMismatch range rows cols
                                  (Z.of_nat (length values))
                                  (firstRowLength values)),
                         mkContext [OpGetItem sheet] [seen])).
  { subst a. cbn [applyAction].
    unfold bind, queue, checkDimensions, emptyContext.
    rewrite Hsplit. unfold bind, lift. rewrite Hstart, Hend. cbn.
    unfold shapeMatches. fold rows cols.
    destruct (rows =? _)%Z, (cols =? _)%Z; reflexivity. }
  split; intros Hshape; rewrite Hshape in Hrun.
  - assert (Hall : forallb applies [a] = true).
    { cbn. unfold applies, completion. by rewrite Hrun. }
    destruct (executeActions_all_apply _ wb Hall) as (Hq & Hs & _).
    cbn [flat_map] in Hq. rewrite app_nil_r in Hq.
    unfold queuedBy in Hq. rewrite Hrun in Hq.
    unfold completion. by rewrite Hrun.
  - assert (He : completion a
                 = Throw (DimensionMismatch range rows cols
                            (Z.of_nat (length values)) (firstRowLength values))).
    { unfold completion. by rewrite Hrun. }
    change [a] with ([] ++ a :: []).
    by rewrite (executeActions_first_throw [] a _ [] wb eq_refl He).
Qed.

(** Claim C1, at the failing input.  A 2x2 formula grid sent to the
    2x3 range A1:C2 passes through [executeActions] unchecked: the
    loop does not throw, nothing is logged, and the write is queued
    and submitted to [context.sync()] as it came.  The same shape
    sent through [setRangeValues] is rejected by the executor with
    the dimension mismatch (expected 2x3, actual 2x2) before any
    sync. *)
Theorem setRangeFormulas_unchecked (wb : gmap string Sheet) :
  let formulas := executeActions resolve
                    [setRangeFormulas "Sheet1" "A1:C2" Demo.formulas2x2] wb in
  let values := executeActions resolve
                  [setRangeValues "Sheet1" "A1:C2" Demo.grid2x2] wb in
  completion (setRangeFormulas "Sheet1" "A1:C2" Demo.formulas2x2) = Normal tt /\
  queued formulas = [OpGetItem "Sheet1"; OpGetRange "Sheet1" "A1:C2";
                     OpSetFormulas "Sheet1" "A1:C2" Demo.formulas2x2] /\
  synced formulas = true /\
  (outcome formulas, document formulas) = sync resolve (queued formulas) wb /\
  outcome values = Throw (DimensionMismatch "A1:C2" 2 3 2 2) /\
  synced values = false /\
  document values = wb.
Proof.
  cbn zeta.
  destruct (executeActions_all_apply
              [setRangeFormulas "Sheet1" "A1:C2" Demo.formulas2x2] wb eq_refl)
    as (Hq & Hs & Hd).
  rewrite Hq, Hs, Hd.
  change [setRangeValues "Sheet1" "A1:C2" Demo.grid2x2]
    with ([] ++ setRangeValues "Sheet1" "A1:C2" Demo.grid2x2 :: []).
  rewrite (executeActions_first_throw []
             (setRangeValues "Sheet1" "A1:C2" Demo.grid2x2)
             (DimensionMismatch "A1:C2" 2 3 2 2) [] wb eq_refl eq_refl).
  split_and!; reflexivity.
Qed.

End ExecutorFacts.

(** ** What a sync can do to a cell *)

Section FrameFacts.
Import Host Executor Batch Frame.

Variable resolve : string -> option Rect.

Lemma cellwise_refl (P : Cell -> Cell -> Prop) wb :
  (forall x, P x x) -> cellwise P wb wb.
Proof. intros HP name sh H. exists sh. auto. Qed.

Lemma cellwise_trans (P : Cell -> Cell -> Prop) wb1 wb2 wb3 :
  (forall x y z, P x y -> P y z -> P x z) ->
  cellwise P wb1 wb2 -> cellwise P wb2 wb3 -> cellwise P wb1 wb3.
Proof.
  intros HP H12 H23 name sh H.
  destruct (H12 _ _ H) as (sh2 & H2 & Hc2).
  destruct (H23 _ _ H2) as (sh3 & H3 & Hc3).
  exists sh3. split; [done|]. intros r c. eapply HP; eauto.
Qed.

Lemma cellwise_mono (P Q : Cell -> Cell -> Prop) wb wb' :
  (forall x y, P x y -> Q x y) -> cellwise P wb wb' -> cellwise Q wb wb'.
Proof.
  intros HPQ H name sh Hsh. destruct (H _ _ Hsh) as (sh' & ? & ?). eauto.
Qed.

(** Replacing one sheet by a cell-wise related one. *)
Lemma cellwise_insert (P : Cell -> Cell -> Prop) wb sheet sh sh' :
  (forall x, P x x) ->
  wb !! sheet = Some sh ->
  (forall r c, P (sh r c) (sh' r c)) ->
  cellwise P wb (<[sheet := sh']> wb).
Proof.
  intros HP Hsheet Hcells name sh0 H0.
  destruct (decide (name = sheet)) as [->|Hne].
  - rewrite lookup_insert_eq. exists sh'. split; [done|].
    rewrite Hsheet in H0. by inversion H0; subst.
  - rewrite lookup_insert_ne by done. exists sh0. auto.
Qed.

Lemma onRange_cellwise (P : Cell -> Cell -> Prop) wb wb' sheet addr f :
  (forall x, P x x) ->
  (forall rc sh sh', f rc sh = Some sh' -> forall r c, P (sh r c) (sh' r c)) ->
  onRange resolve wb sheet addr f = Some wb' ->
  cellwise P wb wb'.
Proof.
  intros HP Hf. unfold onRange.
  destruct (wb !! sheet) as [sh|] eqn:Hsheet; cbn; [|discriminate].
  destruct (resolve addr) as [rc|]; cbn; [|discriminate].
  destruct (f rc sh) as [sh'|] eqn:Hrun; cbn; [|discriminate].
  intros [= <-]. eapply cellwise_insert; eauto.
Qed.

Lemma mapRect_effect (P : Cell -> Cell -> Prop) rc f sh :
  (forall x, P x x) -> (forall x, P x (f x)) ->
  forall r c, P (sh r c) (mapRect rc f sh r c).
Proof. intros HP Hf r c. unfold mapRect. destruct (inRect rc r c); auto. Qed.

Lemma writeGrid_effect {A} (P : Cell -> Cell -> Prop) (mk : A -> Content)
    rc grid sh sh' :
  (forall x, P x x) -> (forall a x, P x (set_content (mk a) x)) ->
  writeGrid mk rc grid sh = Some sh' ->
  forall r c, P (sh r c) (sh' r c).
Proof.
  intros HP Hmk. unfold writeGrid.
  destruct (fits rc grid); [|discriminate]. intros [= <-] r c.
  destruct (inRect rc r c); [|done].
  destruct (gridAt grid _ _); auto.
Qed.

(** One operation relates each cell to itself or to one of the
    operation's effects on it. *)
Lemma applyOp_cellwise op wb wb' :
  applyOp resolve op wb = Some wb' -> cellwise (opEffect op) wb wb'.
Proof.
  assert (Hrefl : forall x, opEffect op x x) by (intros; constructor).
  destruct op; cbn [applyOp]; intros Hrun.
  - destruct (wb !! sheet); cbn in Hrun; [|discriminate].
    inversion Hrun; subst. by apply cellwise_refl.
  - destruct (wb !! sheet); cbn in Hrun; [|discriminate].
    destruct (resolve addr); cbn in Hrun; [|discriminate].
    inversion Hrun; subst. by apply cellwise_refl.
  - eapply onRange_cellwise; [done| |exact Hrun].
    intros ???. apply writeGrid_effect; [done|]. intros; constructor.
  - eapply onRange_cellwise; [done| |exact Hrun].
    intros ???. apply writeGrid_effect; [done|]. intros; constructor.
  - eapply onRange_cellwise; [done| |exact Hrun].
    intros ??? [= <-]. apply mapRect_effect; [done|]. intros; constructor.
  - eapply onRange_cellwise; [done| |exact Hrun].
    intros ??? [= <-]. apply mapRect_effect; [done|]. intros; constructor.
  - eapply onRange_cellwise; [done| |exact Hrun].
    intros ??? [= <-]. apply mapRect_effect; [done|]. intros; constructor.
  - eapply onRange_cellwise; [done| |exact Hrun].
    intros ??? [= <-]. apply mapRect_effect; [done|]. intros; constructor.
  - eapply onRange_cellwise; [done| |exact Hrun].
    intros ??? [= <-]. apply mapRect_effect; [done|]. intros; constructor.
Qed.

(** A sync, whether it resolves or rejects, relates every cell to
    its former self by any preorder that contains the effects of the
    queued operations. *)
Lemma sync_cellwise (P : Cell -> Cell -> Prop) (queue : list Op) :
  (forall x, P x x) ->
  (forall x y z, P x y -> P y z -> P x z) ->
  (forall op x y, op ∈ queue -> opEffect op x y -> P x y) ->
  forall wb, cellwise P wb (snd (sync resolve queue wb)).
Proof.
  intros Hrefl Htrans. induction queue as [|op rest IH]; intros Hops wb; cbn.
  - by apply cellwise_refl.
  - destruct (applyOp resolve op wb) as [wb'|] eqn:Hop; cbn.
    + eapply cellwise_trans; [done| |apply IH].
      * eapply cellwise_mono; [|exact (applyOp_cellwise _ _ _ Hop)].
        intros x y. apply Hops. by left.
      * intros op' x y Hin. apply Hops. by right.
    + by apply cellwise_refl.
Qed.

(** The same for a whole [executeActions] call. *)
Lemma executeActions_cellwise (P : Cell -> Cell -> Prop) actions wb :
  (forall x, P x x) ->
  (forall x y z, P x y -> P y z -> P x z) ->
  (forall op x y, op ∈ flat_map queuedBy actions -> opEffect op x y -> P x y) ->
  cellwise P wb (document (executeActions resolve actions wb)).
Proof.
  intros Hrefl Htrans Hops.
  destruct (forallb applies actions) eqn:Hall.
  - destruct (executeActions_all_apply resolve actions wb Hall) as (_ & _ & Hd).
    pose proof (sync_cellwise P _ Hrefl Htrans Hops wb) as H.
    by rewrite <- Hd in H.
  - destruct (first_throw actions Hall) as (pre & a & e & post & -> & Hpre & He).
    rewrite (executeActions_first_throw resolve _ _ _ _ wb Hpre He). cbn.
    by apply cellwise_refl.
Qed.

Lemma sameFormat_refl x : sameFormat x x.
Proof. by unfold sameFormat. Qed.

Lemma sameFormat_trans x y z : sameFormat x y -> sameFormat y z -> sameFormat x z.
Proof. unfold sameFormat. intuition congruence. Qed.

Lemma sync_clear sheet range applyTo wb sh rc :
  wb !! sheet = Some sh -> resolve range = Some rc ->
  sync resolve [OpGetItem sheet; OpGetRange sheet range;
                OpClear sheet range applyTo] wb
  = (Normal tt, <[sheet := mapRect rc (clear_cell applyTo) sh]> wb).
Proof.
  intros Hsheet Hrange. unfold sync, applyOp, onRange.
  repeat (rewrite ?Hsheet, ?Hrange; cbn [mbind option_bind]).
  reflexivity.
Qed.

(** Claim C5.  A [clearRange] action on an existing sheet, with an
    address the host can resolve, goes through; afterwards every cell
    of the addressed rectangle is blank (no value, no formula), every
    cell of the sheet has the number format, bold flag, font colour
    and fill colour it had, every cell outside the rectangle is the
    cell it was, and every other sheet is untouched. *)
Theorem clearRange_clears_contents_only
    (sheet range : string) (wb : gmap string Sheet) (sh : Sheet) (rc : Rect)
    (Hsheet : wb !! sheet = Some sh)
    (Hrange : resolve range = Some rc) :
  let r := executeActions resolve [clearRange sheet range] wb in
  outcome r = Normal tt /\
  queued r = [OpGetItem sheet; OpGetRange sheet range;
              OpClear sheet range ClearContents] /\
  exists sh',
    document r !! sheet = Some sh' /\
    (forall row col, inRect rc row col = true ->
                     content (sh' row col) = Blank) /\
    (forall row col, sameFormat (sh row col) (sh' row col)) /\
    (forall row col, inRect rc row col = false ->
                     sh' row col = sh row col) /\
    (forall other, other <> sheet -> document r !! other = wb !! other).
Proof.
  cbn zeta.
  destruct (executeActions_all_apply resolve [clearRange sheet range] wb eq_refl)
    as (Hq & _ & Hd).
  set (r := executeActions resolve [clearRange sheet range] wb) in *.
  clearbody r.
  change (flat_map queuedBy [clearRange sheet range])
    with [OpGetItem sheet; OpGetRange sheet range;
          OpClear sheet range ClearContents] in Hq, Hd.
  rewrite (sync_clear _ _ _ _ _ _ Hsheet Hrange) in Hd.
  inversion Hd as [[Ho Hdoc]]. rewrite Hdoc.
  split_and!; [done | exact Hq |].
  exists (mapRect rc (clear_cell ClearContents) sh).
  split_and!.
  - by rewrite lookup_insert_eq.
  - intros row col Hin. unfold mapRect. by rewrite Hin.
  - intros row col. unfold mapRect, sameFormat.
    destruct (inRect rc row col); cbn; auto.
  - intros row col Hout. unfold mapRect. by rewrite Hout.
  - intros other Hne. by rewrite lookup_insert_ne.
Qed.

Lemma queuedBy_formatCell sheet cell format :
  queuedBy (formatCell sheet cell format)
  = [OpGetItem sheet; OpGetRange sheet cell]
    ++ (if isTrue (ActionFormat.bold format)
        then [OpSetBold sheet cell true] else [])
    ++ match nonEmpty (ActionFormat.numberFormat format) with
       | Some fmt => [OpSetNumberFormat sheet cell fmt] | None => [] end
    ++ match nonEmpty (ActionFormat.bgColor format) with
       | Some color => [OpSetFillColor sheet cell color] | None => [] end
    ++ match nonEmpty (ActionFormat.fontColor format) with
       | Some color => [OpSetFontColor sheet cell color] | None => [] end.
Proof.
  unfold queuedBy. cbn [applyAction].
  destruct (isTrue _), (nonEmpty (ActionFormat.numberFormat _)),
    (nonEmpty (ActionFormat.bgColor _)), (nonEmpty (ActionFormat.fontColor _));
    reflexivity.
Qed.

Lemma formatted_refl format x : formatted format x x.
Proof. by unfold formatted. Qed.

Lemma formatted_trans format x y z :
  formatted format x y -> formatted format y z -> formatted format x z.
Proof.
  unfold formatted. intros (Hc&Hb&Hn&Hf&Ho&Hk) (Hc'&Hb'&Hn'&Hf'&Ho'&Hk').
  split_and!; intros.
  - congruence.
  - rewrite Hb', Hb; auto.
  - rewrite Hn', Hn; auto.
  - rewrite Hf', Hf; auto.
  - rewrite Ho', Ho; auto.
  - auto.
Qed.

(** Claim C10.  A [formatCell] action writes a formatting attribute
    only when its option is truthy: with [bold] false or absent the
    bold flag of every cell stays as it was, and likewise the number
    format, fill colour and font colour when their option is empty or
    absent.  Cell contents are never written, and a bold cell stays
    bold whatever the options: [formatCell] can set bold, never clear
    it. *)
Theorem formatCell_truthy_options_only
    (sheet cell : string) (format : ActionFormat.t)
    (wb : gmap string Sheet) (name : string) (sh : Sheet)
    (Hname : wb !! name = Some sh) :
  let r := executeActions resolve [formatCell sheet cell format] wb in
  exists sh',
    document r !! name = Some sh' /\
    forall row col,
      content (sh' row col) = content (sh row col) /\
      (isTrue (ActionFormat.bold format) = false ->
         bold (sh' row col) = bold (sh row col)) /\
      (nonEmpty (ActionFormat.numberFormat format) = None ->
         numberFormat (sh' row col) = numberFormat (sh row col)) /\
      (nonEmpty (ActionFormat.bgColor format) = None ->
         fillColor (sh' row col) = fillColor (sh row col)) /\
      (nonEmpty (ActionFormat.fontColor format) = None ->
         fontColor (sh' row col) = fontColor (sh row col)) /\
      (bold (sh row col) = true -> bold (sh' row col) = true).
Proof.
  cbn zeta.
  apply (executeActions_cellwise (formatted format)
           [formatCell sheet cell format] wb);
    [apply formatted_refl | apply formatted_trans | | exact Hname].
  intros op x y Hop Heff. cbn [flat_map] in Hop.
  rewrite app_nil_r, queuedBy_formatCell in Hop.
  unfold formatted.
  destruct (isTrue _) eqn:Hb,
    (nonEmpty (ActionFormat.numberFormat _)) eqn:Hnf,
    (nonEmpty (ActionFormat.bgColor _)) eqn:Hbg,
    (nonEmpty (ActionFormat.fontColor _)) eqn:Hfc;
    cbn in Hop;
    repeat (apply elem_of_cons in Hop as [->|Hop]);
    try (by apply elem_of_nil in Hop);
    inversion Heff; subst; cbn; split_and!; auto; discriminate.
Qed.

End FrameFacts.

(** ** The snapshot extractor *)

Section SnapshotFacts.
Import Host Snapshot Sparse.

Lemma elem_of_option_list {A} (x : A) (mx : option A) :
  x ∈ option_list mx <-> mx = Some x.
Proof.
  destruct mx as [y|]; cbn.
  - rewrite list_elem_of_singleton. split; congruence.
  - rewrite elem_of_nil. split; [done | discriminate].
Qed.

Lemma rectangular_at u grid row col :
  rectangular u grid = true ->
  row < UsedRange.rowCount u -> col < UsedRange.columnCount u ->
  exists v, gridAt grid row col = Some v /\ at2 grid row col = Normal v.
Proof.
  unfold rectangular, gridAt, at2.
  intros [Hrows Hcols]%andb_true_iff Hrow Hcol.
  apply Nat.eqb_eq in Hrows. rewrite forallb_forall in Hcols.
  destruct (lookup_lt_is_Some_2 grid row) as [cells Hcells]; [lia|].
  rewrite Hcells. cbn.
  assert (Hlen : length cells = UsedRange.columnCount u).
  { apply Nat.eqb_eq, Hcols, list_elem_of_In.
    by eapply list_elem_of_lookup_2. }
  destruct (lookup_lt_is_Some_2 cells col) as [v Hv]; [lia|].
  exists v. by rewrite Hv.
Qed.

Lemma visitCell_loaded u row col cells :
  loaded u = true ->
  row < UsedRange.rowCount u -> col < UsedRange.columnCount u ->
  visitCell u row col cells
  = Normal (cells ++ option_list (recordAt u row col)).
Proof.
  unfold loaded. intros [[Hv Hf]%andb_true_iff Hn]%andb_true_iff Hrow Hcol.
  destruct (rectangular_at _ _ _ _ Hv Hrow Hcol) as (value & Hgv & Hav).
  destruct (rectangular_at _ _ _ _ Hf Hrow Hcol) as (formula & Hgf & Haf).
  destruct (rectangular_at _ _ _ _ Hn Hrow Hcol) as (nf & Hgn & Han).
  unfold visitCell, recordAt. rewrite Hav, Haf, Hgv, Hgf, Hgn. cbn.
  destruct (is_blank value && is_blank formula); cbn.
  - by rewrite app_nil_r.
  - by rewrite Han.
Qed.

Lemma forIndex_appends {A} (f : nat -> list A) indices body :
  (forall i acc, i ∈ indices -> body i acc = Normal (acc ++ f i)) ->
  forall acc, forIndex indices body acc = Normal (acc ++ (indices ≫= f)).
Proof.
  induction indices as [|i rest IH]; intros Hbody acc; cbn.
  - by rewrite app_nil_r.
  - rewrite Hbody by left. cbn.
    rewrite IH by (intros; apply Hbody; by right).
    by rewrite app_assoc.
Qed.

Lemma sheetCells_loaded u :
  loaded u = true ->
  sheetCells u
  = Normal (seq 0 (UsedRange.rowCount u) ≫= fun row =>
            seq 0 (UsedRange.columnCount u) ≫= fun col =>
            option_list (recordAt u row col)).
Proof.
  intros Hu. unfold sheetCells.
  rewrite (forIndex_appends
             (fun row => seq 0 (UsedRange.columnCount u) ≫= fun col =>
                         option_list (recordAt u row col))); [done|].
  intros row acc Hrow%elem_of_seq.
  apply forIndex_appends. intros col acc' Hcol%elem_of_seq.
  apply visitCell_loaded; [done | lia | lia].
Qed.

Lemma recordAt_nonEmptyAt u row col rec :
  recordAt u row col = Some rec <-> nonEmptyAt u row col rec.
Proof.
  unfold recordAt, nonEmptyAt. split.
  - destruct (gridAt (UsedRange.values u) row col) as [value|]; [|done].
    destruct (gridAt (UsedRange.formulas u) row col) as [formula|]; [|done].
    destruct (gridAt (UsedRange.numberFormat u) row col) as [nf|]; [|done].
    cbn. destruct (is_blank value) eqn:Hbv, (is_blank formula) eqn:Hbf;
      cbn; intros [= <-]; exists value, formula, nf; auto 10.
  - intros (value & formula & nf & -> & -> & -> & Hblank & ->). cbn.
    destruct Hblank as [-> | ->]; [done|]. by rewrite andb_false_r.
Qed.

Lemma recordAt_coordinates u row col rec :
  recordAt u row col = Some rec ->
  coordinates rec = (UsedRange.rowIndex u + row, UsedRange.columnIndex u + col).
Proof.
  intros (value & formula & nf & _ & _ & _ & _ & ->)%recordAt_nonEmptyAt.
  reflexivity.
Qed.

Lemma sheetCells_sparse u :
  loaded u = true -> exists cells, sheetCells u = Normal cells /\ sparse u cells.
Proof.
  intros Hu. eexists. split; [by apply sheetCells_loaded|].
  split.
  - intros rec. rewrite list_elem_of_bind. split.
    + intros (row & (col & Hrec & Hcol%elem_of_seq)%list_elem_of_bind
                  & Hrow%elem_of_seq).
      apply elem_of_option_list, recordAt_nonEmptyAt in Hrec.
      exists row, col. split_and!; [lia | lia | done].
    + intros (row & col & Hrow & Hcol & Hrec%recordAt_nonEmptyAt).
      exists row. rewrite list_elem_of_bind, !elem_of_seq.
      split; [|lia]. exists col. rewrite elem_of_seq, elem_of_option_list.
      split; [done | lia].
  - apply NoDup_fmap_2_strong.
    + intros x y
        (row & (col & Hx%elem_of_option_list & _)%list_elem_of_bind & _)%list_elem_of_bind
        (row' & (col' & Hy%elem_of_option_list & _)%list_elem_of_bind & _)%list_elem_of_bind
        Hxy.
      rewrite (recordAt_coordinates _ _ _ _ Hx),
              (recordAt_coordinates _ _ _ _ Hy) in Hxy.
      assert (row = row' /\ col = col') as [-> ->] by (inversion Hxy; lia).
      congruence.
    + apply NoDup_bind; [| |apply NoDup_seq].
      * intros row row' rec _ _
          (col & Hx%elem_of_option_list & _)%list_elem_of_bind
          (col' & Hy%elem_of_option_list & _)%list_elem_of_bind.
        pose proof (recordAt_coordinates _ _ _ _ Hx) as Hcx.
        rewrite (recordAt_coordinates _ _ _ _ Hy) in Hcx.
        inversion Hcx; lia.
      * intros row _. apply NoDup_bind; [| |apply NoDup_seq].
        -- intros col col' rec _ _ Hx%elem_of_option_list Hy%elem_of_option_list.
           pose proof (recordAt_coordinates _ _ _ _ Hx) as Hcx.
           rewrite (recordAt_coordinates _ _ _ _ Hy) in Hcx.
           inversion Hcx; lia.
        -- intros col _. destruct (recordAt u row col); cbn;
             [apply NoDup_singleton | apply NoDup_nil_2].
Qed.

Lemma forSheets_loaded items : forall acc,
  Forall (fun item => loaded item.2 = true) items ->
  exists snapshot,
    forSheets items acc = Normal snapshot /\
    (forall name, name ∉ items.*1 -> snapshot !! name = acc !! name) /\
    (NoDup items.*1 ->
     forall name u, (name, u) ∈ items ->
       exists cells, sheetCells u = Normal cells /\
                     snapshot !! name = Some (mkSheet cells (UsedRange.address u))).
Proof.
  induction items as [|[n u] rest IH]; intros acc Hall.
  - exists acc. split_and!; [done | done |]. intros _ name u' []%elem_of_nil.
  - apply Forall_cons in Hall as [Hu Hrest]. cbn in Hu.
    destruct (sheetCells_sparse u Hu) as (cells & Hcells & _).
    destruct (IH (<[n := mkSheet cells (UsedRange.address u)]> acc) Hrest)
      as (snapshot & Hrun & Hother & Hsheets).
    exists snapshot. cbn [forSheets]. rewrite Hcells. cbn.
    split_and!; [exact Hrun | |].
    + intros name Hname. cbn in Hname. apply not_elem_of_cons in Hname as [? ?].
      rewrite Hother by done. by rewrite lookup_insert_ne.
    + cbn. intros [Hn Hnodup]%NoDup_cons name u' [Heq|Hin]%elem_of_cons.
      * inversion Heq; subst. exists cells. split; [done|].
        rewrite Hother by done. by rewrite lookup_insert_eq.
      * by apply Hsheets.
Qed.

(** Claim C3.  On a workbook whose sheets have distinct names and
    whose used ranges are loaded as rectangles, extraction succeeds
    and maps every sheet to the records of exactly those cells of its
    used range whose value or formula is non-empty, one record per
    cell: a record sits at the used range's row and column offsets
    plus the cell's position, and a cell with both empty has no
    record.  A sheet with values only in B2 and D4 yields the same
    two records, at (1,1) and (3,3), whether its used range is A1:D4
    or B2:D4. *)
Theorem extractModelSnapshot_sparse
    (items : list (string * UsedRange.t))
    (Hnames : NoDup items.*1)
    (Hloaded : Forall (fun item => loaded item.2 = true) items) :
  (exists snapshot,
      extractModelSnapshot items = Normal snapshot /\
      forall name u, (name, u) ∈ items ->
        exists cells,
          snapshot !! name = Some (mkSheet cells (UsedRange.address u)) /\
          sparse u cells) /\
  sheetCells Demo.usedA1D4
  = Normal [ CellRecord.mk 1 1 (JNum 10) (JNum 10) (JStr "General")
                           false "#000000" "#FFFFFF";
             CellRecord.mk 3 3 (JStr "total") (JStr "total") (JStr "General")
                           false "#000000" "#FFFFFF" ] /\
  sheetCells Demo.usedB2D4 = sheetCells Demo.usedA1D4.
Proof.
  split; [|split; reflexivity].
  destruct (forSheets_loaded items ∅ Hloaded) as (snapshot & Hrun & _ & Hsheets).
  exists snapshot. split; [exact Hrun|].
  intros name u Hin.
  destruct (Hsheets Hnames name u Hin) as (cells & Hcells & Hlookup).
  exists cells. split; [exact Hlookup|].
  assert (Hu : loaded u = true).
  { rewrite Forall_forall in Hloaded. exact (Hloaded _ Hin). }
  destruct (sheetCells_sparse u Hu) as (cells' & Hcells' & Hsparse).
  congruence.
Qed.

End SnapshotFacts.

(** ** The error checker's findings *)

Section FindingFacts.
Import ErrorChecker.

(** Claim C7, as stated, fails: the kinds an [ErrorItem] can carry do
    not cover the specification's five; no assignment of kinds to
    [ErrorType] values reaches all of them. *)
Lemma errorType_misses_a_kind :
  ~ exists kindOf : ErrorType -> SpecFindingKind,
      forall kind, exists t, kindOf t = kind.
Proof.
  intros [kindOf Hall].
  destruct (Hall malformed_formula) as [t1 H1].
  destruct (Hall circular_reference) as [t2 H2].
  destruct (Hall missing_reference) as [t3 H3].
  destruct (Hall dimension_mismatch) as [t4 H4].
  destruct (Hall inconsistent_assumption) as [t5 H5].
  destruct t1, t2, t3, t4, t5; congruence.
Qed.

(** Claim C7, amended.  Every [ErrorItem] carries a type drawn from
    exactly four kinds (formula, circular, missing, inconsistent),
    which stand for four distinct kinds of the specification's
    taxonomy, all but dimension-mismatch; a severity that is critical
    or warning; and a sheet name and cell address that
    [navigateToError] hands to the host as they are. *)
Theorem errorItem_taxonomy (error : ErrorItem) :
  type error ∈ [formula; circular; missing; inconsistent] /\
  NoDup [formula; circular; missing; inconsistent] /\
  (forall t1 t2, specKind t1 = specKind t2 -> t1 = t2) /\
  (forall kind, (exists t, specKind t = kind) <-> kind <> dimension_mismatch) /\
  severity error ∈ [critical; warning] /\
  navigateToError error
  = [ NavGetItem (sheet error); NavActivate (sheet error);
      NavGetRange (sheet error) (cell error);
      NavSelect (sheet error) (cell error); NavSync ].
Proof.
  split_and!.
  - destruct (type error); set_solver.
  - repeat (apply NoDup_cons;
            split; [rewrite ?elem_of_cons, ?elem_of_nil; intuition discriminate|]).
    apply NoDup_nil_2.
  - intros [] []; cbn; congruence.
  - intros kind. split.
    + intros [[] <-]; discriminate.
    + destruct kind; intros Hk; try done;
        [exists formula | exists circular | exists missing | exists inconsistent];
        reflexivity.
  - destruct (severity error); set_solver.
  - reflexivity.
Qed.

End FindingFacts.

(** ** Worked instances *)

Section Instances.
Import Host Executor Batch Frame Snapshot Sparse.

(** valid, mismatched, valid: the batch stops at index 1. *)
Lemma executeActions_fail_fast_witness :
  forallb applies [setCellValue "Sheet1" "A1" (JNum 7)] = true /\
  completion (setRangeValues "Sheet1" "A1:C2" Demo.grid2x2)
  = Throw (DimensionMismatch "A1:C2" 2 3 2 2) /\
  outcome (executeActions Demo.resolve Demo.batch Demo.book)
  = Throw (DimensionMismatch "A1:C2" 2 3 2 2) /\
  queued (executeActions Demo.resolve Demo.batch Demo.book)
  = [OpGetItem "Sheet1"; OpGetRange "Sheet1" "A1";
     OpSetValues "Sheet1" "A1" [[JNum 7]]; OpGetItem "Sheet1"].
Proof.
  split; [reflexivity|]. split; [reflexivity|].
  pose proof (executeActions_fail_fast Demo.resolve
                [setCellValue "Sheet1" "A1" (JNum 7)]
                [setCellValue "Sheet1" "B5" (JStr "never")]
                (setRangeValues "Sheet1" "A1:C2" Demo.grid2x2)
                (DimensionMismatch "A1:C2" 2 3 2 2)
                Demo.book eq_refl eq_refl) as H.
  cbn zeta in H. destruct H as (_ & Ho & Hq & _).
  split; [exact Ho | exact Hq].
Defined.

Lemma sync_only_after_whole_batch_witness :
  forallb applies Demo.batch = false /\
  document (executeActions Demo.resolve Demo.batch Demo.book) = Demo.book.
Proof.
  split; [reflexivity|].
  pose proof (sync_only_after_whole_batch Demo.resolve Demo.batch Demo.book) as H.
  cbn zeta in H. destruct H as (_ & H & _).
  destruct (H eq_refl) as [Hdoc _]. exact Hdoc.
Defined.

Lemma sendMessage_agent_gate_witness :
  Demo.batch <> [] /\
  documentAfter
    (sendMessage_actions Demo.resolve false (Some Demo.batch) Demo.book)
    Demo.book
  = Demo.book.
Proof.
  assert (Hne : Demo.batch <> []) by discriminate.
  split; [exact Hne|].
  destruct (sendMessage_agent_gate Demo.resolve false Demo.batch Demo.book Hne)
    as (_ & H & _).
  destruct (H eq_refl) as [_ Hdoc]. exact Hdoc.
Defined.

Lemma clearRange_clears_contents_only_witness :
  Demo.book !! "Sheet1" = Some Demo.sheet1 /\
  Demo.resolve "A1:B2" = Some (mkRect 0 0 2 2) /\
  exists sh',
    document (executeActions Demo.resolve [clearRange "Sheet1" "A1:B2"] Demo.book)
      !! "Sheet1" = Some sh' /\
    content (sh' 1 1) = Blank /\ bold (sh' 1 1) = true /\
    sh' 2 2 = Demo.loud.
Proof.
  assert (Hsheet : Demo.book !! "Sheet1" = Some Demo.sheet1) by reflexivity.
  assert (Hrange : Demo.resolve "A1:B2" = Some (mkRect 0 0 2 2)) by reflexivity.
  split; [exact Hsheet|]. split; [exact Hrange|].
  pose proof (clearRange_clears_contents_only Demo.resolve "Sheet1" "A1:B2"
                Demo.book Demo.sheet1 (mkRect 0 0 2 2) Hsheet Hrange) as H.
  cbn zeta in H. destruct H as (_ & _ & sh' & Hdoc & Hin & Hfmt & Hout & _).
  exists sh'. split; [exact Hdoc|].
  split; [exact (Hin 1 1 eq_refl)|].
  split; [exact (proj1 (proj2 (Hfmt 1 1)))|].
  exact (Hout 2 2 eq_refl).
Defined.

Lemma setRangeValues_no_colon_unchecked_witness :
  hasColon "A1" = false /\
  queued (executeActions Demo.resolve
            [setRangeValues "Sheet1" "A1" Demo.grid2x3] Demo.book)
  = [OpGetItem "Sheet1"; OpGetRange "Sheet1" "A1";
     OpSetValues "Sheet1" "A1" Demo.grid2x3].
Proof.
  split; [reflexivity|].
  pose proof (setRangeValues_no_colon_unchecked Demo.resolve "Sheet1" "A1"
                Demo.grid2x3 Demo.book eq_refl) as H.
  cbn zeta in H. destruct H as (_ & _ & Hq & _). exact Hq.
Defined.

Lemma formatCell_truthy_options_only_witness :
  Demo.book !! "Sheet1" = Some Demo.sheet1 /\
  exists sh',
    document (executeActions Demo.resolve
                [formatCell "Sheet1" "A1" Demo.unbold] Demo.book)
      !! "Sheet1" = Some sh' /\
    bold (sh' 0 0) = true /\ fillColor (sh' 0 0) = "#FFFF00".
Proof.
  assert (Hsheet : Demo.book !! "Sheet1" = Some Demo.sheet1) by reflexivity.
  split; [exact Hsheet|].
  pose proof (formatCell_truthy_options_only Demo.resolve "Sheet1" "A1"
                Demo.unbold Demo.book "Sheet1" Demo.sheet1 Hsheet) as H.
  cbn zeta in H. destruct H as (sh' & Hdoc & Hcells).
  exists sh'. split; [exact Hdoc|].
  destruct (Hcells 0 0) as (_ & Hb & _ & Hfill & _ & _).
  split; [exact (Hb eq_refl) | exact (Hfill eq_refl)].
Defined.

Lemma extractModelSnapshot_sparse_witness :
  NoDup [("Sheet1", Demo.usedA1D4); ("Sheet2", Demo.usedB2D4)].*1 /\
  Forall (fun item => loaded item.2 = true)
         [("Sheet1", Demo.usedA1D4); ("Sheet2", Demo.usedB2D4)] /\
  exists snapshot,
    extractModelSnapshot [("Sheet1", Demo.usedA1D4); ("Sheet2", Demo.usedB2D4)]
    = Normal snapshot /\
    exists cells,
      snapshot !! "Sheet2" = Some (mkSheet cells "Sheet1!B2:D4") /\
      sparse Demo.usedB2D4 cells.
Proof.
  assert (Hnames : NoDup [("Sheet1", Demo.usedA1D4); ("Sheet2", Demo.usedB2D4)].*1).
  { cbn. apply NoDup_cons. split; [|apply NoDup_singleton].
    rewrite list_elem_of_singleton. discriminate. }
  assert (Hloaded : Forall (fun item => loaded item.2 = true)
                      [("Sheet1", Demo.usedA1D4); ("Sheet2", Demo.usedB2D4)]).
  { repeat constructor. }
  split; [exact Hnames|]. split; [exact Hloaded|].
  destruct (extractModelSnapshot_sparse _ Hnames Hloaded)
    as ((snapshot & Hrun & Hsheets) & _).
  exists snapshot. split; [exact Hrun|].
  apply (Hsheets "Sheet2" Demo.usedB2D4). set_solver.
Defined.

End Instances.

(** ** Addresses: letters, digits, colons *)

Section AddressFacts.
Import Chars.

Local Open Scope Z_scope.









(** *** The two patterns *)

Lemma append_cons ch (rest s : string) :
  (String ch rest ++ s)%string = String ch (rest ++ s)%string.
Proof. reflexivity. Qed.

Lemma append_nil (s : string) : (EmptyString ++ s)%string = s.
Proof. reflexivity. Qed.

Lemma append_nil_r (s : string) : (s ++ EmptyString)%string = s.
Proof.
  induction s as [|ch rest IH]; [reflexivity|]. by rewrite append_cons, IH.
Qed.

Lemma append_assoc (s1 s2 s3 : string) :
  (s1 ++ s2 ++ s3)%string = ((s1 ++ s2) ++ s3)%string.
Proof.
  induction s1 as [|ch rest IH]; [reflexivity|]. by rewrite !append_cons, IH.
Qed.

Lemma dropUntil_noneOf p pre s :
  noneOf p pre = true -> dropUntil p (pre ++ s)%string = dropUntil p s.
Proof.
  induction pre as [|ch rest IH]; [done|].
  rewrite append_cons. cbn.
  intros [Hch Hrest]%andb_true_iff. apply negb_true_iff in Hch.
  rewrite Hch. by apply IH.
Qed.

Lemma dropUntil_start p run s ch :
  p ch = true -> dropUntil p (String ch run ++ s)%string = (String ch run ++ s)%string.
Proof. intros H. rewrite append_cons. cbn. by rewrite H. Qed.

Lemma takeWhile_run p run s :
  allOf p run = true -> stopsAt p s = true ->
  takeWhile p (run ++ s)%string = run.
Proof.
  induction run as [|ch rest IH]; rewrite ?append_cons, ?append_nil; cbn.
  - intros _. destruct s as [|c s']; cbn; [done|].
    intros H%negb_true_iff. by rewrite H.
  - intros [Hch Hrest]%andb_true_iff Hs. rewrite Hch. by rewrite IH.
Qed.

(** The match is the first run of the class: what precedes it holds
    no character of the class, what follows starts outside it. *)
Lemma matchRun_first p pre run s :
  noneOf p pre = true -> run <> EmptyString -> allOf p run = true ->
  stopsAt p s = true ->
  matchRun p (pre ++ run ++ s)%string = Some run.
Proof.
  intros Hpre Hne Hrun Hs. unfold matchRun.
  rewrite (dropUntil_noneOf _ _ _ Hpre).
  destruct run as [|ch rest]; [done|].
  assert (Hch : p ch = true) by (cbn in Hrun; by apply andb_true_iff in Hrun as [? _]).
  rewrite (dropUntil_start _ _ _ _ Hch).
  by rewrite (takeWhile_run _ _ _ Hrun Hs).
Qed.

Lemma matchRun_none p s : noneOf p s = true -> matchRun p s = None.
Proof.
  intros H. unfold matchRun.
  rewrite <- (append_nil_r s), (dropUntil_noneOf _ _ _ H). reflexivity.
Qed.

Lemma noneOf_app p s1 s2 :
  noneOf p (s1 ++ s2)%string = noneOf p s1 && noneOf p s2.
Proof.
  induction s1 as [|ch rest IH]; rewrite ?append_cons, ?append_nil; cbn; [done|].
  by rewrite IH, andb_assoc.
Qed.

Lemma upper_not_digit ch : isUpper ch = true -> isDigit ch = false.
Proof. unfold isUpper, isDigit. intros [? ?]%andb_true_iff. apply andb_false_iff. lia. Qed.

Lemma allOf_upper_noneOf_digit s : allOf isUpper s = true -> noneOf isDigit s = true.
Proof.
  induction s as [|ch rest IH]; cbn; [done|].
  intros [Hch Hrest]%andb_true_iff. by rewrite (upper_not_digit _ Hch), IH.
Qed.

Lemma noneOf_stopsAt p s1 s2 :
  noneOf p s1 = true -> stopsAt p s2 = true -> stopsAt p (s1 ++ s2)%string = true.
Proof.
  destruct s1; rewrite ?append_cons, ?append_nil; cbn; [done|].
  by intros [? ?]%andb_true_iff.
Qed.

Lemma digits_stop_upper s1 s2 :
  allOf isDigit s1 = true -> s1 <> EmptyString -> stopsAt isUpper (s1 ++ s2)%string = true.
Proof.
  destruct s1 as [|ch rest]; [done|]. rewrite append_cons. cbn.
  intros [Hch _]%andb_true_iff _.
  apply negb_true_iff. unfold isUpper, isDigit in *.
  apply andb_true_iff in Hch as [? ?]. apply andb_false_iff. lia.
Qed.

Lemma parseInt_from_nonneg digits : forall acc,
  allOf isDigit digits = true -> 0 <= acc -> 0 <= parseInt_from acc digits.
Proof.
  induction digits as [|ch rest IH]; intros acc; cbn; [done|].
  intros [Hch Hrest]%andb_true_iff Hacc. apply IH; [done|].
  unfold isDigit in Hch. apply andb_true_iff in Hch as [? ?]. lia.
Qed.

(** X2.  A corner written as capital letters followed by digits,
    possibly with separators that are neither (the dollar signs of an
    absolute reference) before the letters and between letters and
    digits, parses to exactly those letters and the number the digits
    spell, which is never negative. *)
Theorem cornerOf_letters_digits
    (before letters between digits after : string)
    (Hbefore : noneOf isUpper before = true /\ noneOf isDigit before = true)
    (Hletters : letters <> EmptyString /\ allOf isUpper letters = true)
    (Hbetween : noneOf isUpper between = true /\ noneOf isDigit between = true)
    (Hdigits : digits <> EmptyString /\ allOf isDigit digits = true)
    (Hafter : stopsAt isDigit after = true) :
  cornerOf (before ++ letters ++ between ++ digits ++ after)%string
  = Normal (letters, parseInt digits) /\
  0 <= parseInt digits.
Proof.
  destruct Hbefore as [Hbu Hbd], Hletters as [Hln Hl], Hbetween as [Hmu Hmd],
    Hdigits as [Hdn Hd].
  split; [|by apply parseInt_from_nonneg].
  unfold cornerOf.
  rewrite (matchRun_first isUpper before letters) by
    first [done | apply noneOf_stopsAt; [done|by apply digits_stop_upper]].
  replace (before ++ letters ++ between ++ digits ++ after)%string
    with ((before ++ letters ++ between) ++ digits ++ after)%string
    by (by rewrite <- !append_assoc).
  rewrite (matchRun_first isDigit) by
    first [done
          | by rewrite !noneOf_app, Hbd, Hmd, (allOf_upper_noneOf_digit _ Hl)].
  reflexivity.
Qed.

Lemma cornerOf_letters_digits_witness :
  cornerOf "$AB$12" = Normal ("AB", 12).
Proof.
  apply (cornerOf_letters_digits "$" "AB" "$" "12" "");
    (split; [discriminate || reflexivity | reflexivity]) || reflexivity.
Defined.

(** *** Splitting at colons *)

Lemma split_nonempty sep s : split sep s <> [].
Proof.
  destruct s as [|ch rest]; cbn; [done|].
  destruct (Ascii.eqb ch sep); [done|]. by destruct (split sep rest).
Qed.

Lemma join_cons sep piece pieces :
  pieces <> [] ->
  join sep (piece :: pieces) = (piece ++ String sep (join sep pieces))%string.
Proof. by destruct pieces. Qed.

Lemma join_first sep ch piece pieces :
  join sep (String ch piece :: pieces) = String ch (join sep (piece :: pieces)).
Proof. by destruct pieces. Qed.

(** X3.  Splitting loses nothing: joining the pieces with the
    separator gives the string back, there is one more piece than
    there are separators, and no piece holds a separator. *)
Theorem split_join (sep : ascii) (s : string) :
  join sep (split sep s) = s /\
  length (split sep s) = S (occurrences sep s) /\
  Forall (fun piece => occurrences sep piece = 0%nat) (split sep s).
Proof.
  induction s as [|ch rest (IHj & IHn & IHp)]; cbn [split occurrences].
  - split_and!; [done | done | by repeat constructor].
  - pose proof (split_nonempty sep rest) as Hne.
    destruct (Ascii.eqb ch sep) eqn:Hch.
    + apply Ascii.eqb_eq in Hch as ->.
      split_and!.
      * by rewrite (join_cons _ _ _ Hne), IHj.
      * cbn [length]. by rewrite IHn.
      * by constructor.
    + destruct (split sep rest) as [|piece pieces] eqn:Hs; [done|].
      apply Forall_cons in IHp as [Hp Hps].
      split_and!.
      * by rewrite join_first, IHj.
      * cbn [length] in *. by rewrite IHn.
      * constructor; [|done]. cbn. by rewrite Hch, Hp.
Qed.

End AddressFacts.

(** ** The dimension check, case by case *)

Section DimensionFacts.
Import Host Executor Batch Chars Intent.

Variable resolve : string -> option Rect.

Lemma matchRun_Some_or_noneOf p s :
  matchRun p s = None <-> noneOf p s = true.
Proof.
  split; [|apply matchRun_none].
  unfold matchRun. induction s as [|ch rest IH]; cbn; [done|].
  destruct (p ch) eqn:Hch; cbn; [|exact IH].
  rewrite Hch. discriminate.
Qed.

Lemma cornerOf_throws cellAddr :
  cornerOf cellAddr = Throw NullDeref <->
  noneOf isUpper cellAddr = true \/ noneOf isDigit cellAddr = true.
Proof.
  unfold cornerOf. rewrite <- !matchRun_Some_or_noneOf.
  destruct (matchRun isUpper cellAddr), (matchRun isDigit cellAddr);
    split; intros H; try discriminate; auto; destruct H; discriminate.
Qed.

Lemma cornerOf_cases cellAddr :
  cornerOf cellAddr = Throw NullDeref \/
  exists col row, cornerOf cellAddr = Normal (col, row).
Proof.
  unfold cornerOf.
  destruct (matchRun isUpper cellAddr), (matchRun isDigit cellAddr); eauto.
Qed.

(** The [try] body of a [setRangeValues] action on a two-part
    address, started on a fresh context. *)
Lemma setRangeValues_run sheet range startCell endCell values :
  split ":" range = [startCell; endCell] ->
  applyAction (setRangeValues sheet range values) emptyContext
  = match cornerOf startCell, cornerOf endCell with
    | Normal (startCol, startRow), Normal (endCol, endRow) =>
        let rows := (endRow - startRow + 1)%Z in
        let cols := (colToNum endCol - colToNum startCol + 1)%Z in
        let seen := LogRange range rows cols (Z.of_nat (length values))
                             (firstRowLength values) in
        if shapeMatches rows cols values
        then (Normal tt,
              mkContext [OpGetItem sheet; OpGetRange sheet range;
                         OpSetValues sheet range values] [seen])
        else (Throw (DimensionMismatch range rows cols
                       (Z.of_nat (length values)) (firstRowLength values)),
              mkContext [OpGetItem sheet] [seen])
    | Throw e, _ | Normal _, Throw e => (Throw e, mkContext [OpGetItem sheet] [])
    end.
Proof.
  intros Hsplit. cbn [applyAction].
  unfold bind, queue, checkDimensions, emptyContext. rewrite Hsplit.
  unfold bind, lift.
  destruct (cornerOf startCell) as [[startCol startRow]|e1]; [|reflexivity].
  destruct (cornerOf endCell) as [[endCol endRow]|e2]; [|reflexivity].
  cbn. unfold shapeMatches.
  destruct (_ =? Z.of_nat _)%Z, (_ =? firstRowLength _)%Z; reflexivity.
Qed.

Lemma executeActions_single_throw action e wb :
  completion action = Throw e ->
  executeActions resolve [action] wb
  = mkResult (Throw e) wb (loggedBy action ++ [LogActionFailed action e])
             (queuedBy action) false.
Proof.
  intros He. change [action] with ([] ++ action :: []).
  by rewrite (executeActions_first_throw resolve [] action e [] wb eq_refl He).
Qed.

(** The verdict and the console line of a [setRangeValues] action are
    those of its dimension check. *)
Lemma setRangeValues_verdict sheet range values :
  completion (setRangeValues sheet range values)
  = fst (checkDimensions range values (mkContext [OpGetItem sheet] [])) /\
  loggedBy (setRangeValues sheet range values)
  = console (snd (checkDimensions range values (mkContext [OpGetItem sheet] []))).
Proof.
  unfold completion, loggedBy. cbn [applyAction]. unfold bind, queue. cbn.
  destruct (checkDimensions range values _) as [[[]|e] [q l]]; done.
Qed.

(** Property X4.  The executor's verdict on a [setRangeValues] action
    depends on the payload only through its outer length and the
    length of its first row: two payloads that agree on these two
    numbers are both accepted or both rejected with the same error,
    whatever their other rows hold (a ragged payload passes the
    check). *)
Theorem setRangeValues_verdict_two_lengths
    (sheet range : string) (values values' : list (list JsVal))
    (Hrows : length values = length values')
    (Hfirst : firstRowLength values = firstRowLength values') :
  completion (setRangeValues sheet range values)
  = completion (setRangeValues sheet range values') /\
  loggedBy (setRangeValues sheet range values)
  = loggedBy (setRangeValues sheet range values').
Proof.
  assert (Hcheck : checkDimensions range values = checkDimensions range values').
  { unfold checkDimensions. by rewrite Hrows, Hfirst. }
  destruct (setRangeValues_verdict sheet range values) as [-> ->].
  destruct (setRangeValues_verdict sheet range values') as [-> ->].
  by rewrite Hcheck.
Qed.

(** Property X5.  On a two-part address one of whose corners holds no
    capital letter or no digit (a lower-case address, a whole-column or
    whole-row range), [setRangeValues] throws the error of indexing a
    null match for every payload: the call rejects before any sync,
    the workbook is untouched and the failure is logged. *)
Theorem setRangeValues_unparsable_corner
    (sheet range startCell endCell : string) (values : list (list JsVal))
    (wb : gmap string Sheet)
    (Hsplit : split ":" range = [startCell; endCell])
    (Hcorner : noneOf isUpper startCell = true \/ noneOf isDigit startCell = true \/
               noneOf isUpper endCell = true \/ noneOf isDigit endCell = true) :
  executeActions resolve [setRangeValues sheet range values] wb
  = mkResult (Throw NullDeref) wb
             [LogActionFailed (setRangeValues sheet range values) NullDeref]
             [OpGetItem sheet] false.
Proof.
  pose proof (setRangeValues_run sheet range _ _ values Hsplit) as Hrun.
  assert (Hbad : cornerOf startCell = Throw NullDeref \/
                 cornerOf endCell = Throw NullDeref).
  { rewrite !cornerOf_throws. tauto. }
  assert (Hrun' : applyAction (setRangeValues sheet range values) emptyContext
                  = (Throw NullDeref, mkContext [OpGetItem sheet] [])).
  { rewrite Hrun.
    destruct (cornerOf_cases startCell) as [Hs|(c & r & Hs)]; rewrite Hs;
      [reflexivity|].
    destruct Hbad as [Hb|Hb]; [congruence|]. by rewrite Hb. }
  rewrite (executeActions_single_throw _ NullDeref);
    unfold completion, loggedBy, queuedBy; by rewrite Hrun'.
Qed.

Lemma firstRowLength_nonneg {A} (grid : list (list A)) : (0 <= firstRowLength grid)%Z.
Proof. destruct grid; cbn; lia. Qed.

(** Property X6.  A two-corner address whose end corner lies before
    its start corner (so that the expected row or column count is
    negative, or the row count is zero with a non-zero column count)
    is rejected with a dimension mismatch for every payload. *)
Theorem setRangeValues_reversed_range
    (sheet range startCell endCell startCol endCol : string)
    (startRow endRow : Z) (values : list (list JsVal))
    (wb : gmap string Sheet)
    (Hsplit : split ":" range = [startCell; endCell])
    (Hstart : cornerOf startCell = Normal (startCol, startRow))
    (Hend : cornerOf endCell = Normal (endCol, endRow))
    (Hreversed :
       (endRow - startRow + 1 < 0 \/
        colToNum endCol - colToNum startCol + 1 < 0 \/
        endRow - startRow + 1 = 0 /\
        colToNum endCol - colToNum startCol + 1 <> 0)%Z) :
  let r := executeActions resolve [setRangeValues sheet range values] wb in
  outcome r = Throw (DimensionMismatch range
                       (endRow - startRow + 1)
                       (colToNum endCol - colToNum startCol + 1)
                       (Z.of_nat (length values)) (firstRowLength values)) /\
  synced r = false /\
  document r = wb.
Proof.
  apply (setRangeValues_checked resolve sheet range startCell endCell
           startCol endCol startRow endRow values wb Hsplit Hstart Hend).
  unfold shapeMatches. apply andb_false_iff.
  pose proof (firstRowLength_nonneg values).
  destruct Hreversed as [?|[?|[Hr Hc]]].
  - left. apply Z.eqb_neq. lia.
  - right. apply Z.eqb_neq. lia.
  - destruct values as [|row rest].
    + right. apply Z.eqb_neq. cbn. lia.
    + left. apply Z.eqb_neq. cbn [length]. lia.
Qed.

(** Property X7.  The dimension check is passed over exactly when the
    address does not hold exactly one colon; with exactly one colon
    the check either throws or leaves its line on the console. *)
Theorem checkDimensions_skipped_iff
    (range : string) (values : list (list JsVal)) :
  checkDimensions range values emptyContext = (Normal tt, emptyContext)
  <-> occurrences ":" range <> 1.
Proof.
  destruct (split_join ":" range) as (_ & Hn & _).
  unfold checkDimensions.
  destruct (split ":" range) as [|startCell [|endCell [|third more]]];
    cbn [length] in Hn; (split; [intros Hrun; try lia | intros Hocc; try done; try lia]).
  exfalso. revert Hrun. unfold bind, lift.
  destruct (cornerOf startCell) as [[startCol startRow]|e1]; [|discriminate].
  destruct (cornerOf endCell) as [[endCol endRow]|e2]; [|discriminate].
  cbn. destruct (_ || _); cbn; discriminate.
Qed.

End DimensionFacts.

Section DimensionInstances.
Import Host Executor Batch Chars Intent.

Lemma setRangeValues_verdict_two_lengths_witness :
  length Demo.grid2x2 = length [[JNum 1; JNum 2]; [JNum 3]] /\
  firstRowLength Demo.grid2x2 = firstRowLength [[JNum 1; JNum 2]; [JNum 3]] /\
  completion (setRangeValues "Sheet1" "A1:B2" [[JNum 1; JNum 2]; [JNum 3]])
  = Normal tt.
Proof.
  split; [reflexivity|]. split; [reflexivity|].
  destruct (setRangeValues_verdict_two_lengths "Sheet1" "A1:B2"
              Demo.grid2x2 [[JNum 1; JNum 2]; [JNum 3]] eq_refl eq_refl)
    as [H _].
  rewrite <- H. reflexivity.
Defined.

Lemma setRangeValues_unparsable_corner_witness :
  outcome (executeActions Demo.resolve
             [setRangeValues "Sheet1" "A:C" Demo.grid2x3] Demo.book)
  = Throw NullDeref.
Proof.
  rewrite (setRangeValues_unparsable_corner Demo.resolve "Sheet1" "A:C" "A" "C"
             Demo.grid2x3 Demo.book eq_refl);
    [reflexivity | right; left; reflexivity].
Defined.

Lemma setRangeValues_reversed_range_witness :
  outcome (executeActions Demo.resolve
             [setRangeValues "Sheet1" "C2:A1" Demo.grid2x3] Demo.book)
  = Throw (DimensionMismatch "C2:A1" 0 (-1) 2 3).
Proof.
  apply (setRangeValues_reversed_range Demo.resolve "Sheet1" "C2:A1" "C2" "A1"
           "C" "A" 2 1 Demo.grid2x3 Demo.book eq_refl eq_refl eq_refl).
  right. left. reflexivity.
Defined.

End DimensionInstances.

(** ** Batches: what is queued, what is logged, what a sync keeps *)

Section BatchFacts.
Import Host Executor Batch Frame Intent.

Variable resolve : string -> option Rect.

(** The dimension check queues nothing, and logs at most its line. *)
Lemma checkDimensions_context range values ctx :
  let ctx' := snd (checkDimensions range values ctx) in
  pending ctx' = pending ctx /\
  (console ctx' = console ctx \/
   exists rows cols, console ctx'
     = console ctx ++ [LogRange range rows cols (Z.of_nat (length values))
                                (firstRowLength values)]).
Proof.
  unfold checkDimensions.
  destruct (split ":" range) as [|startCell [|endCell [|third more]]];
    try (cbn; auto; fail).
  unfold bind, lift.
  destruct (cornerOf startCell) as [[startCol startRow]|e1]; [|cbn; auto].
  destruct (cornerOf endCell) as [[endCol endRow]|e2]; [|cbn; auto].
  cbn. destruct (_ || _); cbn; eauto.
Qed.

Lemma setRangeValues_steps sheet range values :
  applyAction (setRangeValues sheet range values) emptyContext
  = match checkDimensions range values (mkContext [OpGetItem sheet] []) with
    | (Normal _, ctx) =>
        (Normal tt, mkContext (writes (setRangeValues sheet range values))
                              (console ctx))
    | (Throw e, ctx) => (Throw e, mkContext [OpGetItem sheet] (console ctx))
    end.
Proof.
  cbn [applyAction]. unfold bind, queue, emptyContext. cbn.
  pose proof (checkDimensions_context range values
                (mkContext [OpGetItem sheet] [])) as [Hq _].
  destruct (checkDimensions range values _) as [[[]|e] [q l]]; cbn in *;
    by rewrite Hq.
Qed.

(** An action that applies queues what it means to write. *)
Lemma queuedBy_applies action :
  applies action = true -> queuedBy action = writes action.
Proof.
  unfold applies, completion, queuedBy.
  destruct action; try (intros _; reflexivity).
  - rewrite setRangeValues_steps.
    by destruct (checkDimensions _ _ _) as [[[]|e] ctx].
  - intros _. apply queuedBy_formatCell.
Qed.

(** An action that throws has queued a beginning of it; the sheet
    resolution comes first in either case. *)
Lemma queuedBy_writes action :
  (queuedBy action = writes action \/
   queuedBy action = [OpGetItem (sheetOf action)]) /\
  exists rest, queuedBy action = OpGetItem (sheetOf action) :: rest.
Proof.
  destruct (applies action) eqn:Ha.
  - rewrite (queuedBy_applies _ Ha). split; [by left|].
    destruct action; cbn; eauto.
  - unfold applies, completion in Ha. unfold queuedBy.
    destruct action; try discriminate Ha.
    + rewrite setRangeValues_steps in *.
      destruct (checkDimensions _ _ _) as [[[]|e] ctx]; cbn in *; eauto.
    + exfalso. revert Ha. cbn [applyAction].
      destruct (isTrue _), (nonEmpty (ActionFormat.numberFormat _)),
        (nonEmpty (ActionFormat.bgColor _)), (nonEmpty (ActionFormat.fontColor _));
        discriminate.
Qed.

Lemma elem_of_queuedBy op action :
  op ∈ queuedBy action -> op ∈ writes action.
Proof.
  destruct (queuedBy_writes action) as [[->| ->] _]; [done|].
  intros ->%list_elem_of_singleton. destruct action; cbn; by left.
Qed.

(** Applying an action logs nothing but the dimension line. *)
Lemma loggedBy_range action entry :
  entry ∈ loggedBy action ->
  exists range rows cols actualRows actualCols,
    entry = LogRange range rows cols actualRows actualCols.
Proof.
  unfold loggedBy. destruct action;
    try (cbn; intros []%elem_of_nil; fail).
  - rewrite setRangeValues_steps.
    pose proof (checkDimensions_context range values
                  (mkContext [OpGetItem sheet] [])) as [_ Hl].
    destruct (checkDimensions _ _ _) as [[[]|e] [q l]]; cbn in *;
      (destruct Hl as [->|(rows & cols & ->)];
       [intros []%elem_of_nil | intros ->%list_elem_of_singleton; eauto 10]).
  - cbn [applyAction].
    destruct (isTrue _), (nonEmpty (ActionFormat.numberFormat _)),
      (nonEmpty (ActionFormat.bgColor _)), (nonEmpty (ActionFormat.fontColor _));
      cbn; intros []%elem_of_nil.
Qed.

Lemma logged_range actions entry :
  entry ∈ flat_map loggedBy actions ->
  exists range rows cols actualRows actualCols,
    entry = LogRange range rows cols actualRows actualCols.
Proof.
  induction actions as [|a rest IH]; cbn; [intros []%elem_of_nil|].
  intros [H|H]%elem_of_app; [by eapply loggedBy_range | by apply IH].
Qed.

(** The whole result of a batch every action of which applies. *)
Lemma executeActions_applied actions wb :
  forallb applies actions = true ->
  executeActions resolve actions wb
  = match sync resolve (flat_map writes actions) wb with
    | (Normal _, wb') =>
        mkResult (Normal tt) wb' (flat_map loggedBy actions ++ [LogAllExecuted])
                 (flat_map writes actions) true
    | (Throw e, wb') =>
        mkResult (Throw e) wb' (flat_map loggedBy actions)
                 (flat_map writes actions) true
    end.
Proof.
  intros Hall.
  assert (Hq : flat_map queuedBy actions = flat_map writes actions).
  { induction actions as [|a rest IH]; [done|]. cbn in *.
    apply andb_true_iff in Hall as [Ha Hrest].
    by rewrite (queuedBy_applies _ Ha), (IH Hrest). }
  unfold executeActions. rewrite (forOf_all_apply _ _ Hall). cbn.
  rewrite Hq. by destruct (sync resolve _ wb) as [[[]|e] wb'].
Qed.

Lemma sync_app queue1 queue2 wb :
  sync resolve (queue1 ++ queue2) wb
  = match sync resolve queue1 wb with
    | (Normal _, wb1) => sync resolve queue2 wb1
    | (Throw e, wb1) => (Throw e, wb1)
    end.
Proof.
  revert wb. induction queue1 as [|op rest IH]; intros wb; cbn; [done|].
  by destruct (applyOp resolve op wb).
Qed.

Lemma elem_of_flat_map {A B} (f : A -> list B) (l : list A) (b : B) :
  b ∈ flat_map f l <-> exists a, a ∈ l /\ b ∈ f a.
Proof.
  rewrite list_elem_of_In, in_flat_map.
  split; intros (a & Ha & Hb); exists a; by rewrite ?list_elem_of_In in *.
Qed.

(** Property X8.  Whether the sheet an action names exists is not
    looked at while actions are applied: a batch whose actions all
    apply but whose first action names a missing sheet reaches
    [context.sync()], which rejects; the workbook is left as it was
    and no action is logged as failed. *)
Theorem missing_sheet_rejected_at_sync
    (action : Action) (rest : list Action) (wb : gmap string Sheet)
    (Hall : forallb applies (action :: rest) = true)
    (Hmissing : wb !! sheetOf action = None) :
  let r := executeActions resolve (action :: rest) wb in
  outcome r = Throw HostError /\
  synced r = true /\
  document r = wb /\
  Forall (fun entry => isFailureLog entry = false) (consoleOut r).
Proof.
  cbn zeta. rewrite (executeActions_applied _ wb Hall).
  assert (Hsync : sync resolve (flat_map writes (action :: rest)) wb
                  = (Throw HostError, wb)).
  { cbn [flat_map].
    assert (exists tail, writes action = OpGetItem (sheetOf action) :: tail)
      as [tail ->] by (destruct action; cbn; eauto).
    cbn. by rewrite Hmissing. }
  rewrite Hsync. cbn. split_and!; try done.
  apply Forall_forall. intros entry Hin.
  by destruct (logged_range (action :: rest) _ Hin) as (? & ? & ? & ? & ? & ->).
Qed.

Lemma applyOp_dom op wb wb' :
  applyOp resolve op wb = Some wb' -> dom wb' = dom wb.
Proof.
  assert (Hon : forall sheet addr f,
             onRange resolve wb sheet addr f = Some wb' -> dom wb' = dom wb).
  { intros sheet addr f. unfold onRange.
    destruct (wb !! sheet) as [sh|] eqn:Hsheet; cbn; [|discriminate].
    destruct (resolve addr) as [rc|]; cbn; [|discriminate].
    destruct (f rc sh) as [sh'|]; cbn; [|discriminate].
    intros [= <-]. by apply dom_insert_lookup_L. }
  destruct op; cbn [applyOp]; eauto.
  - destruct (wb !! sheet); cbn; [|discriminate]. by intros [= <-].
  - destruct (wb !! sheet); cbn; [|discriminate].
    destruct (resolve addr); cbn; [|discriminate]. by intros [= <-].
Qed.

Lemma sync_dom queue wb : dom (snd (sync resolve queue wb)) = dom wb.
Proof.
  revert wb. induction queue as [|op rest IH]; intros wb; cbn; [done|].
  destruct (applyOp resolve op wb) as [wb'|] eqn:Hop; cbn; [|done].
  by rewrite IH, (applyOp_dom _ _ _ Hop).
Qed.

Lemma executeActions_document actions wb :
  document (executeActions resolve actions wb)
  = if synced (executeActions resolve actions wb)
    then snd (sync resolve (queued (executeActions resolve actions wb)) wb)
    else wb.
Proof.
  unfold executeActions.
  destruct (forOf actions _) as [[[]|e] ctx]; [|done].
  destruct (sync resolve (pending ctx) wb) as [[[]|e] wb'] eqn:Hsync;
    cbn; by rewrite Hsync.
Qed.

(** Property X9.  No batch adds, removes or renames a sheet: the
    workbook after [executeActions] has exactly the sheets it had
    before, however the call ends. *)
Theorem executeActions_keeps_sheets
    (actions : list Action) (wb : gmap string Sheet) :
  dom (document (executeActions resolve actions wb)) = dom wb.
Proof.
  rewrite executeActions_document.
  destruct (synced _); [apply sync_dom | done].
Qed.

(** Property X10.  Actions that write or clear contents never touch
    formatting: after a batch without [formatCell] actions every cell
    of every sheet has the number format, bold flag, font colour and
    fill colour it had. *)
Theorem content_actions_keep_format
    (actions : list Action) (wb : gmap string Sheet)
    (Hnone : forallb (fun action => negb (writesFormat action)) actions = true) :
  cellwise sameFormat wb (document (executeActions resolve actions wb)).
Proof.
  apply executeActions_cellwise.
  - apply sameFormat_refl.
  - apply sameFormat_trans.
  - intros op x y (a & Ha & Hop)%elem_of_flat_map Heff.
    apply elem_of_queuedBy in Hop.
    rewrite forallb_forall in Hnone.
    specialize (Hnone a (proj1 (list_elem_of_In _ _) Ha)).
    destruct a; try discriminate Hnone; cbn in Hop;
      repeat (apply elem_of_cons in Hop as [->|Hop]);
      try (by apply elem_of_nil in Hop);
      inversion Heff; subst; by unfold sameFormat.
Qed.

(** Property X11.  [formatCell] actions, and actions of an unknown
    type, never touch contents: after a batch of such actions every
    cell of every sheet holds the value or formula it held. *)
Theorem format_actions_keep_content
    (actions : list Action) (wb : gmap string Sheet)
    (Hnone : forallb (fun action => negb (writesContent action)) actions = true) :
  cellwise (fun x y => content y = content x) wb
           (document (executeActions resolve actions wb)).
Proof.
  apply executeActions_cellwise.
  - done.
  - intros x y z Hxy Hyz. by rewrite Hyz.
  - intros op x y (a & Ha & Hop)%elem_of_flat_map Heff.
    apply elem_of_queuedBy in Hop.
    rewrite forallb_forall in Hnone.
    specialize (Hnone a (proj1 (list_elem_of_In _ _) Ha)).
    destruct a; try discriminate Hnone; cbn [writes] in Hop.
    + destruct (isTrue _), (nonEmpty (ActionFormat.numberFormat _)),
        (nonEmpty (ActionFormat.bgColor _)), (nonEmpty (ActionFormat.fontColor _));
        cbn in Hop;
        repeat (apply elem_of_cons in Hop as [->|Hop]);
        try (by apply elem_of_nil in Hop);
        inversion Heff; subst; done.
    + apply list_elem_of_singleton in Hop as ->. by inversion Heff.
Qed.

End BatchFacts.

(** ** Writes read back, order, and splitting a batch *)

Section WriteFacts.
Import Host Executor Batch Frame Intent.

Variable resolve : string -> option Rect.

(** Resolving a sheet and a range on it, then one operation on that
    range. *)
Lemma sync_on_range sheet addr op f wb sh rc :
  wb !! sheet = Some sh -> resolve addr = Some rc ->
  (forall wb0, applyOp resolve op wb0 = onRange resolve wb0 sheet addr f) ->
  sync resolve [OpGetItem sheet; OpGetRange sheet addr; op] wb
  = match f rc sh with
    | Some sh' => (Normal tt, <[sheet := sh']> wb)
    | None => (Throw HostError, wb)
    end.
Proof.
  intros Hsheet Hrange Hop. cbn [sync]. cbn [applyOp].
  repeat (rewrite ?Hsheet, ?Hrange; cbn [mbind option_bind]).
  rewrite Hop. unfold onRange.
  repeat (rewrite ?Hsheet, ?Hrange; cbn [mbind option_bind]).
  by destruct (f rc sh).
Qed.

Lemma sync_setCellValue sheet cell value wb sh rc :
  wb !! sheet = Some sh -> resolve cell = Some rc ->
  height rc = 1 -> width rc = 1 ->
  sync resolve (writes (setCellValue sheet cell value)) wb
  = (Normal tt, <[sheet := written rc value sh]> wb).
Proof.
  intros Hsheet Hcell Hh Hw. cbn [writes].
  rewrite (sync_on_range sheet cell _
             (fun rc => writeGrid Literal rc [[value]]) wb sh rc Hsheet Hcell)
    by done.
  unfold writeGrid, fits. cbn. by rewrite Hh, Hw.
Qed.

Lemma inRect_single rc r c :
  height rc = 1 -> width rc = 1 ->
  inRect rc r c = true <-> r = top rc /\ c = left rc.
Proof.
  intros Hh Hw. unfold inRect. rewrite Hh, Hw, !andb_true_iff.
  rewrite !Nat.leb_le, !Nat.ltb_lt. lia.
Qed.

Lemma written_at rc value sh :
  height rc = 1 -> width rc = 1 ->
  written rc value sh (top rc) (left rc)
  = set_content (Literal value) (sh (top rc) (left rc)).
Proof.
  intros Hh Hw. unfold written.
  rewrite (proj2 (inRect_single rc _ _ Hh Hw)) by done.
  by rewrite !Nat.sub_diag.
Qed.

Lemma written_elsewhere rc value sh r c :
  height rc = 1 -> width rc = 1 ->
  (r, c) <> (top rc, left rc) -> written rc value sh r c = sh r c.
Proof.
  intros Hh Hw Hne. unfold written.
  destruct (inRect rc r c) eqn:Hin; [|done].
  apply (inRect_single rc _ _ Hh Hw) in Hin as [-> ->]. done.
Qed.

(** Property X12.  A [setCellValue] action on an existing sheet and an
    address of one cell goes through, and the value reads back: the
    cell holds the value as a literal, keeps its formatting, every
    other cell of the sheet is the cell it was, and every other sheet
    is untouched. *)
Theorem setCellValue_reads_back
    (sheet cell : string) (value : JsVal)
    (wb : gmap string Sheet) (sh : Sheet) (rc : Rect)
    (Hsheet : wb !! sheet = Some sh)
    (Hcell : resolve cell = Some rc)
    (Hone : height rc = 1 /\ width rc = 1) :
  let r := executeActions resolve [setCellValue sheet cell value] wb in
  outcome r = Normal tt /\
  exists sh',
    document r !! sheet = Some sh' /\
    content (sh' (top rc) (left rc)) = Literal value /\
    sameFormat (sh (top rc) (left rc)) (sh' (top rc) (left rc)) /\
    (forall row col, (row, col) <> (top rc, left rc) -> sh' row col = sh row col) /\
    (forall other, other <> sheet -> document r !! other = wb !! other).
Proof.
  destruct Hone as [Hh Hw]. cbn zeta.
  rewrite (executeActions_applied resolve [setCellValue sheet cell value] wb eq_refl).
  cbn [flat_map]. rewrite app_nil_r, (sync_setCellValue _ _ _ _ _ _ Hsheet Hcell Hh Hw).
  cbn. split; [done|]. exists (written rc value sh). split_and!.
  - by rewrite lookup_insert_eq.
  - by rewrite written_at.
  - rewrite written_at by done. by unfold sameFormat.
  - intros row col Hne. by apply written_elsewhere.
  - intros other Hne. by rewrite lookup_insert_ne.
Qed.

(** Property X13.  Order within a batch matters: clearing a cell and
    then setting it leaves the value, setting it and then clearing it
    leaves the cell blank. *)
Theorem clear_and_set_do_not_commute
    (sheet cell : string) (value : JsVal)
    (wb : gmap string Sheet) (sh : Sheet) (rc : Rect)
    (Hsheet : wb !! sheet = Some sh)
    (Hcell : resolve cell = Some rc)
    (Hone : height rc = 1 /\ width rc = 1) :
  let clearFirst := executeActions resolve
                      [clearRange sheet cell; setCellValue sheet cell value] wb in
  let setFirst := executeActions resolve
                    [setCellValue sheet cell value; clearRange sheet cell] wb in
  outcome clearFirst = Normal tt /\ outcome setFirst = Normal tt /\
  (exists sh1, document clearFirst !! sheet = Some sh1 /\
               content (sh1 (top rc) (left rc)) = Literal value) /\
  (exists sh2, document setFirst !! sheet = Some sh2 /\
               content (sh2 (top rc) (left rc)) = Blank).
Proof.
  destruct Hone as [Hh Hw]. cbn zeta.
  rewrite (executeActions_applied resolve
             [clearRange sheet cell; setCellValue sheet cell value] wb eq_refl).
  rewrite (executeActions_applied resolve
             [setCellValue sheet cell value; clearRange sheet cell] wb eq_refl).
  cbn [flat_map]. rewrite !app_nil_r, !sync_app.
  change (writes (clearRange sheet cell))
    with [OpGetItem sheet; OpGetRange sheet cell;
          OpClear sheet cell ClearContents].
  rewrite (sync_clear resolve _ _ _ _ _ _ Hsheet Hcell).
  rewrite (sync_setCellValue _ _ _ _ _ _ Hsheet Hcell Hh Hw).
  rewrite (sync_setCellValue sheet cell value _ _ rc
             (lookup_insert_eq _ _ _) Hcell Hh Hw).
  rewrite (sync_clear resolve sheet cell ClearContents _ _ rc
             (lookup_insert_eq _ _ _) Hcell).
  cbn. split_and!; [done | done | |].
  - eexists. split; [apply lookup_insert_eq|]. by rewrite written_at.
  - eexists. split; [apply lookup_insert_eq|]. unfold mapRect.
    by rewrite (proj2 (inRect_single rc _ _ Hh Hw)).
Qed.

Lemma flat_map_app {A B} (f : A -> list B) (l1 l2 : list A) :
  flat_map f (l1 ++ l2) = flat_map f l1 ++ flat_map f l2.
Proof. induction l1 as [|a l1 IH]; cbn; [done|]. by rewrite IH, app_assoc. Qed.

(** Property X14.  One call on a batch against two calls on its two
    halves.  When the first half applies, the second call starts from
    what the first committed; if the second half applies as well, the
    one call ends as the two calls in sequence do.  If an action of
    the second half throws, the two differ: the one call commits
    nothing, while the first of the two calls has already synced its
    half. *)
Theorem executeActions_split
    (first second : list Action) (wb : gmap string Sheet)
    (Hfirst : forallb applies first = true) :
  let whole := executeActions resolve (first ++ second) wb in
  let one := executeActions resolve first wb in
  let two := executeActions resolve second (document one) in
  synced one = true /\
  (outcome one, document one) = sync resolve (flat_map writes first) wb /\
  (forallb applies second = true ->
     (outcome whole, document whole)
     = match outcome one with
       | Normal _ => (outcome two, document two)
       | Throw e => (Throw e, document one)
       end) /\
  (forallb applies second = false ->
     synced whole = false /\ document whole = wb).
Proof.
  cbn zeta. rewrite (executeActions_applied resolve first wb Hfirst).
  split_and!.
  - by destruct (sync resolve _ wb) as [[[]|e] wb1].
  - by destruct (sync resolve _ wb) as [[[]|e] wb1].
  - intros Hsecond.
    assert (Hall : forallb applies (first ++ second) = true)
      by (by rewrite forallb_app, Hfirst, Hsecond).
    rewrite (executeActions_applied resolve _ wb Hall), flat_map_app, sync_app.
    destruct (sync resolve (flat_map writes first) wb) as [[[]|e] wb1]; cbn; [|done].
    rewrite (executeActions_applied resolve second wb1 Hsecond).
    by destruct (sync resolve (flat_map writes second) wb1) as [[[]|e] wb2].
  - intros Hsecond.
    destruct (first_throw second Hsecond) as (pre & a & e & post & -> & Hpre & He).
    assert (Hpre' : forallb applies (first ++ pre) = true)
      by (by rewrite forallb_app, Hfirst, Hpre).
    rewrite app_assoc.
    by rewrite (executeActions_first_throw resolve _ _ _ _ wb Hpre' He).
Qed.

(** Property X15.  The console tells how the call ended: the success
    line is there exactly when the call resolved; an action is logged
    as failed exactly when the loop threw before the sync, and then
    that entry comes last, names an action of the batch and carries
    the error the call rejects with. *)
Theorem console_tells_outcome
    (actions : list Action) (wb : gmap string Sheet) :
  let r := executeActions resolve actions wb in
  (LogAllExecuted ∈ consoleOut r <-> outcome r = Normal tt) /\
  (Exists (fun entry => isFailureLog entry = true) (consoleOut r)
   <-> synced r = false) /\
  (synced r = false ->
   exists action e,
     action ∈ actions /\ outcome r = Throw e /\
     last (consoleOut r) = Some (LogActionFailed action e)).
Proof.
  cbn zeta.
  assert (Hrange : forall l entry,
             entry ∈ flat_map loggedBy l ->
             entry <> LogAllExecuted /\ isFailureLog entry = false).
  { intros l entry (? & ? & ? & ? & ? & ->)%logged_range. done. }
  destruct (forallb applies actions) eqn:Hall.
  - rewrite (executeActions_applied resolve actions wb Hall).
    destruct (sync resolve _ wb) as [[[]|e] wb']; cbn; split_and!.
    + split; [done|]. intros _. apply elem_of_app. right. by left.
    + split; [|done]. rewrite Exists_exists.
      intros (entry & [Hin| ->%list_elem_of_singleton]%elem_of_app & Hfail);
        [|done]. apply Hrange in Hin as [_ Hin]. congruence.
    + done.
    + split; [|done]. by intros [Hne _]%Hrange.
    + split; [|done]. rewrite Exists_exists.
      intros (entry & [_ Hin]%Hrange & Hfail). congruence.
    + done.
  - destruct (first_throw actions Hall) as (pre & a & e & post & -> & Hpre & He).
    rewrite (executeActions_first_throw resolve _ _ _ _ wb Hpre He). cbn.
    split_and!.
    + split; [|done].
      assert (Hlog : flat_map loggedBy pre ++ loggedBy a
                     = flat_map loggedBy (pre ++ [a]))
        by (rewrite flat_map_app; cbn; by rewrite app_nil_r).
      rewrite app_assoc, Hlog.
      intros [[Hne _]%Hrange| H%list_elem_of_singleton]%elem_of_app; done.
    + split; [done|]. intros _. rewrite Exists_exists.
      exists (LogActionFailed a e). split; [|done].
      rewrite !elem_of_app. right. right. by left.
    + intros _. exists a, e. split_and!; [|done|].
      * apply elem_of_app. right. by left.
      * by rewrite !app_assoc, last_snoc.
Qed.

End WriteFacts.

Section BatchInstances.
Import Host Executor Batch Frame Intent.

Lemma missing_sheet_rejected_at_sync_witness :
  outcome (executeActions Demo.resolve
             [setCellValue "Missing" "A1" (JNum 1);
              setCellValue "Sheet1" "A1" (JNum 2)] Demo.book)
  = Throw HostError /\
  document (executeActions Demo.resolve
              [setCellValue "Missing" "A1" (JNum 1);
               setCellValue "Sheet1" "A1" (JNum 2)] Demo.book)
  = Demo.book.
Proof.
  assert (Hmissing : Demo.book !! "Missing" = None) by reflexivity.
  pose proof (missing_sheet_rejected_at_sync Demo.resolve
                (setCellValue "Missing" "A1" (JNum 1))
                [setCellValue "Sheet1" "A1" (JNum 2)] Demo.book
                eq_refl Hmissing) as H.
  cbn zeta in H. destruct H as (Ho & _ & Hd & _). by split.
Defined.

Lemma content_actions_keep_format_witness :
  exists sh',
    document (executeActions Demo.resolve
                [clearRange "Sheet1" "A1:B2";
                 setCellValue "Sheet1" "A1" (JNum 2)] Demo.book)
      !! "Sheet1" = Some sh' /\
    bold (sh' 0 0) = true.
Proof.
  assert (Hsheet : Demo.book !! "Sheet1" = Some Demo.sheet1) by reflexivity.
  destruct (content_actions_keep_format Demo.resolve
              [clearRange "Sheet1" "A1:B2"; setCellValue "Sheet1" "A1" (JNum 2)]
              Demo.book eq_refl "Sheet1" Demo.sheet1 Hsheet)
    as (sh' & Hdoc & Hcells).
  exists sh'. split; [exact Hdoc|].
  exact (proj1 (proj2 (Hcells 0 0))).
Defined.

Lemma format_actions_keep_content_witness :
  exists sh',
    document (executeActions Demo.resolve
                [formatCell "Sheet1" "A1" Demo.unbold;
                 otherAction "highlight" "Sheet1"] Demo.book)
      !! "Sheet1" = Some sh' /\
    content (sh' 0 0) = Literal (JNum 1).
Proof.
  assert (Hsheet : Demo.book !! "Sheet1" = Some Demo.sheet1) by reflexivity.
  destruct (format_actions_keep_content Demo.resolve
              [formatCell "Sheet1" "A1" Demo.unbold;
               otherAction "highlight" "Sheet1"]
              Demo.book eq_refl "Sheet1" Demo.sheet1 Hsheet)
    as (sh' & Hdoc & Hcells).
  exists sh'. split; [exact Hdoc|]. exact (Hcells 0 0).
Defined.

Lemma setCellValue_reads_back_witness :
  exists sh',
    document (executeActions Demo.resolve
                [setCellValue "Sheet1" "B2" (JStr "total")] Demo.book)
      !! "Sheet1" = Some sh' /\
    content (sh' 1 1) = Literal (JStr "total").
Proof.
  assert (Hsheet : Demo.book !! "Sheet1" = Some Demo.sheet1) by reflexivity.
  assert (Hcell : Demo.resolve "B2" = Some (mkRect 1 1 1 1)) by reflexivity.
  pose proof (setCellValue_reads_back Demo.resolve "Sheet1" "B2" (JStr "total")
                Demo.book Demo.sheet1 (mkRect 1 1 1 1) Hsheet Hcell
                (conj eq_refl eq_refl)) as H.
  cbn zeta in H. destruct H as (_ & sh' & Hdoc & Hval & _).
  exists sh'. by split.
Defined.

Lemma clear_and_set_do_not_commute_witness :
  exists sh2,
    document (executeActions Demo.resolve
                [setCellValue "Sheet1" "B2" (JStr "total");
                 clearRange "Sheet1" "B2"] Demo.book)
      !! "Sheet1" = Some sh2 /\
    content (sh2 1 1) = Blank.
Proof.
  assert (Hsheet : Demo.book !! "Sheet1" = Some Demo.sheet1) by reflexivity.
  assert (Hcell : Demo.resolve "B2" = Some (mkRect 1 1 1 1)) by reflexivity.
  pose proof (clear_and_set_do_not_commute Demo.resolve "Sheet1" "B2"
                (JStr "total") Demo.book Demo.sheet1 (mkRect 1 1 1 1)
                Hsheet Hcell (conj eq_refl eq_refl)) as H.
  cbn zeta in H. destruct H as (_ & _ & _ & H). exact H.
Defined.

Lemma executeActions_split_witness :
  forallb applies [setCellValue "Sheet1" "A1" (JNum 7)] = true /\
  synced (executeActions Demo.resolve
            ([setCellValue "Sheet1" "A1" (JNum 7)]
             ++ [setRangeValues "Sheet1" "A1:C2" Demo.grid2x2]) Demo.book)
  = false.
Proof.
  split; [reflexivity|].
  pose proof (executeActions_split Demo.resolve
                [setCellValue "Sheet1" "A1" (JNum 7)]
                [setRangeValues "Sheet1" "A1:C2" Demo.grid2x2]
                Demo.book eq_refl) as H.
  cbn zeta in H. destruct H as (_ & _ & _ & H).
  exact (proj1 (H eq_refl)).
Defined.

End BatchInstances.

(** ** The snapshot: placement, order, size, keys *)

Section ReadingFacts.
Import Host Snapshot Sparse Reading.

(** A counted loop keeps an invariant indexed by the loop counter. *)
Lemma forIndex_invariant {S} (P : nat -> S -> Prop) body len :
  forall start s s',
    (forall i acc acc', start <= i < start + len ->
        P i acc -> body i acc = Normal acc' -> P (Datatypes.S i) acc') ->
    P start s ->
    forIndex (seq start len) body s = Normal s' ->
    P (start + len) s'.
Proof.
  induction len as [|len IH]; intros start s s' Hbody Hs; cbn.
  - intros [= <-]. by rewrite Nat.add_0_r.
  - destruct (body start s) as [s1|e] eqn:Hrun; cbn; [|discriminate].
    intros Hrest. rewrite <- Nat.add_succ_comm.
    apply (IH (Datatypes.S start) s1 s'); [|by eapply Hbody; [lia|..]|done].
    intros i acc acc' Hi. apply Hbody. lia.
Qed.

(** What one visit does to the list: nothing, or one record at the
    cell's absolute coordinates. *)
Lemma visitCell_cases u row col cells cells' :
  visitCell u row col cells = Normal cells' ->
  cells' = cells \/
  exists rec,
    cells' = cells ++ [rec] /\
    coordinates rec = (UsedRange.rowIndex u + row, UsedRange.columnIndex u + col) /\
    (CellRecord.formula rec = JNull \/ truthy (CellRecord.formula rec) = true).
Proof.
  unfold visitCell, andThen.
  destruct (at2 (UsedRange.values u) row col) as [value|]; [|discriminate].
  destruct (at2 (UsedRange.formulas u) row col) as [formula|]; [|discriminate].
  destruct (is_blank value && is_blank formula); [intros [= <-]; by left|].
  destruct (at2 (UsedRange.numberFormat u) row col) as [nf|]; [|discriminate].
  intros [= <-]. right. eexists. split_and!; [done | done |].
  cbn. unfold or_else. destruct (truthy formula) eqn:Ht; auto.
Qed.

Lemma ascending_snoc cells rec :
  ascending cells ->
  Forall (fun earlier => before (coordinates earlier) (coordinates rec)) cells ->
  ascending (cells ++ [rec]).
Proof.
  induction cells as [|x rest IH]; cbn; [by intros _ _; split|].
  intros [Hx Hrest] [Hxr Hall]%Forall_cons. split.
  - apply Forall_app. split; [done|]. by constructor.
  - by apply IH.
Qed.

Lemma upTo_visit u row col cells cells' :
  row < UsedRange.rowCount u -> col < UsedRange.columnCount u ->
  upTo u row col cells ->
  visitCell u row col cells = Normal cells' ->
  upTo u row (S col) cells'.
Proof.
  intros Hrow Hcol (Hasc & Hplaced & Hbefore & Hlen) Hrun.
  assert (Hnext : forall rec,
             before (coordinates rec)
               (UsedRange.rowIndex u + row, UsedRange.columnIndex u + col) ->
             before (coordinates rec)
               (UsedRange.rowIndex u + row, UsedRange.columnIndex u + S col)).
  { unfold before. cbn. lia. }
  destruct (visitCell_cases _ _ _ _ _ Hrun) as [->|(rec & -> & Hco & Hf)].
  - split_and!; [done | done | | lia].
    eapply Forall_impl; [exact Hbefore | exact Hnext].
  - split_and!.
    + apply ascending_snoc; [done|]. by rewrite Hco.
    + apply Forall_app. split; [done|]. constructor; [|done].
      unfold wellPlaced. unfold coordinates in Hco. inversion Hco as [[Hr Hc]].
      split_and!; [lia | lia | lia | lia | done].
    + apply Forall_app. split.
      * eapply Forall_impl; [exact Hbefore | exact Hnext].
      * constructor; [|done]. rewrite Hco. unfold before. cbn. lia.
    + rewrite length_app. cbn. lia.
Qed.

Lemma upTo_next_row u row cells :
  upTo u row (UsedRange.columnCount u) cells -> upTo u (S row) 0 cells.
Proof.
  intros (Hasc & Hplaced & Hbefore & Hlen). split_and!; [done | done | | lia].
  eapply Forall_impl; [exact Hbefore|].
  intros rec. unfold before. cbn.
  rewrite Forall_forall in Hplaced. intros [?|[? ?]]; lia.
Qed.

Lemma sheetCells_upTo u cells :
  sheetCells u = Normal cells -> upTo u (UsedRange.rowCount u) 0 cells.
Proof.
  unfold sheetCells. intros Hrun.
  refine (forIndex_invariant (fun row acc => upTo u row 0 acc)
            _ (UsedRange.rowCount u) 0 [] cells _ _ Hrun).
  - intros row acc acc' Hrow Hacc Hinner.
    apply upTo_next_row.
    refine (forIndex_invariant (fun col acc => upTo u row col acc)
              _ (UsedRange.columnCount u) 0 acc acc' _ Hacc Hinner).
    intros col a a' Hcol. apply upTo_visit; lia.
  - split_and!; [done | done | done | cbn; lia].
Qed.

(** Property X16.  Whatever the used range, every record that
    extraction produces lies inside it at absolute coordinates, and
    its formula field is either [null] or truthy: a cell whose formula
    reads as the empty string, zero or false is recorded with formula
    [null]. *)
Theorem records_well_placed (u : UsedRange.t) (cells : list CellRecord.t)
    (Hrun : sheetCells u = Normal cells) :
  Forall (wellPlaced u) cells.
Proof. by destruct (sheetCells_upTo u cells Hrun) as (_ & ? & _). Qed.

(** Property X17.  The records of a sheet come in reading order: row
    by row, and within a row by column, each strictly before the
    next; so no two records share coordinates. *)
Theorem records_in_reading_order (u : UsedRange.t) (cells : list CellRecord.t)
    (Hrun : sheetCells u = Normal cells) :
  ascending cells /\ NoDup (coordinates <$> cells).
Proof.
  destruct (sheetCells_upTo u cells Hrun) as (Hasc & _).
  split; [done|]. clear Hrun.
  induction cells as [|rec rest IH]; cbn; [constructor|].
  destruct Hasc as [Hrec Hrest]. constructor; [|by apply IH].
  intros (later & Heq & Hin)%list_elem_of_fmap.
  rewrite Forall_forall in Hrec. specialize (Hrec later Hin).
  rewrite Heq in Hrec. unfold before in Hrec. lia.
Qed.

(** Property X18.  A sheet never yields more records than its used
    range has cells. *)
Theorem records_at_most_cells (u : UsedRange.t) (cells : list CellRecord.t)
    (Hrun : sheetCells u = Normal cells) :
  length cells <= UsedRange.rowCount u * UsedRange.columnCount u.
Proof. destruct (sheetCells_upTo u cells Hrun) as (_ & _ & _ & ?). lia. Qed.

(** Property X19.  A loaded used range yields the empty list exactly
    when each of its cells has an empty value and an empty formula. *)
Theorem blank_sheet_no_records (u : UsedRange.t) (Hu : loaded u = true) :
  sheetCells u = Normal [] <->
  forall row col value formula,
    row < UsedRange.rowCount u -> col < UsedRange.columnCount u ->
    gridAt (UsedRange.values u) row col = Some value ->
    gridAt (UsedRange.formulas u) row col = Some formula ->
    is_blank value = true /\ is_blank formula = true.
Proof.
  destruct (sheetCells_sparse u Hu) as (cells & Hcells & Hmem & _).
  rewrite Hcells. split.
  - intros [= ->] row col value formula Hrow Hcol Hv Hf.
    destruct (is_blank value) eqn:Hbv, (is_blank formula) eqn:Hbf; [done|..];
      exfalso;
      unfold loaded in Hu;
      apply andb_true_iff in Hu as [_ Hn];
      destruct (rectangular_at _ _ _ _ Hn Hrow Hcol) as (nf & Hnf & _);
      eapply (elem_of_nil (A := CellRecord.t)), Hmem;
      exists row, col; (split_and!; [done | done |]);
      exists value, formula, nf; (split_and!; [done | done | done | | done]);
      auto.
  - intros Hblank. destruct cells as [|rec rest]; [done|]. exfalso.
    destruct (proj1 (Hmem rec) ltac:(by left))
      as (row & col & Hrow & Hcol & value & formula & nf & Hv & Hf & _ & Hnb & _).
    destruct (Hblank row col value formula Hrow Hcol Hv Hf) as [Hbv Hbf].
    destruct Hnb; congruence.
Qed.

Lemma forSheets_dom items : forall acc snapshot,
  forSheets items acc = Normal snapshot ->
  dom snapshot = dom acc ∪ list_to_set items.*1.
Proof.
  induction items as [|[name u] rest IH]; intros acc snapshot; cbn.
  - intros [= <-]. by rewrite union_empty_r_L.
  - destruct (sheetCells u) as [cells|e]; cbn; [|discriminate].
    intros Hrun%IH. rewrite Hrun, dom_insert_L.
    by rewrite (comm_L (∪) {[name]}), <- (assoc_L (∪)).
Qed.

(** Property X20.  When extraction succeeds, the snapshot has one
    entry per sheet name and no other entry; each entry carries the
    address of a used range listed under that name. *)
Theorem snapshot_keys_are_sheet_names
    (items : list (string * UsedRange.t))
    (snapshot : gmap string SheetSnapshot)
    (Hrun : extractModelSnapshot items = Normal snapshot) :
  dom snapshot = list_to_set items.*1 /\
  forall name entry,
    snapshot !! name = Some entry ->
    exists u, (name, u) ∈ items /\ address entry = UsedRange.address u /\
              sheetCells u = Normal (cells entry).
Proof.
  split.
  - rewrite (forSheets_dom _ _ _ Hrun), dom_empty_L. apply union_empty_l_L.
  - unfold extractModelSnapshot in Hrun.
    assert (Hgen : forall acc,
               forSheets items acc = Normal snapshot ->
               forall name entry, snapshot !! name = Some entry ->
                 acc !! name = Some entry \/
                 exists u, (name, u) ∈ items /\
                           address entry = UsedRange.address u /\
                           sheetCells u = Normal (cells entry)).
    { clear Hrun. induction items as [|[n u] rest IH]; intros acc; cbn.
      - intros [= <-] name entry H. by left.
      - destruct (sheetCells u) as [cs|e] eqn:Hcs; cbn; [|discriminate].
        intros Hrun name entry Hentry.
        destruct (IH _ Hrun name entry Hentry) as [Hacc|(u' & Hin & ? & ?)].
        + destruct (decide (n = name)) as [->|Hne].
          * rewrite lookup_insert_eq in Hacc. inversion Hacc; subst.
            right. exists u. split_and!; [by left | done | done].
          * rewrite lookup_insert_ne in Hacc by done. by left.
        + right. exists u'. split_and!; [by right | done | done]. }
    intros name entry Hentry.
    destruct (Hgen ∅ Hrun name entry Hentry) as [Hempty|H]; [|done].
    by rewrite lookup_empty in Hempty.
Qed.

End ReadingFacts.

Section ReadingInstances.
Import Host Snapshot Sparse Reading.

Lemma records_well_placed_witness :
  Forall (wellPlaced Demo.usedB2D4)
    [ CellRecord.mk 1 1 (JNum 10) (JNum 10) (JStr "General")
                    false "#000000" "#FFFFFF";
      CellRecord.mk 3 3 (JStr "total") (JStr "total") (JStr "General")
                    false "#000000" "#FFFFFF" ].
Proof. apply (records_well_placed Demo.usedB2D4). reflexivity. Defined.

Lemma records_in_reading_order_witness :
  NoDup (coordinates <$>
    [ CellRecord.mk 1 1 (JNum 10) (JNum 10) (JStr "General")
                    false "#000000" "#FFFFFF";
      CellRecord.mk 3 3 (JStr "total") (JStr "total") (JStr "General")
                    false "#000000" "#FFFFFF" ]).
Proof.
  apply (proj2 (records_in_reading_order Demo.usedA1D4 _ eq_refl)).
Defined.

Lemma records_at_most_cells_witness :
  length [ CellRecord.mk 1 1 (JNum 10) (JNum 10) (JStr "General")
                         false "#000000" "#FFFFFF";
           CellRecord.mk 3 3 (JStr "total") (JStr "total") (JStr "General")
                         false "#000000" "#FFFFFF" ]
  <= 3 * 3.
Proof. apply (records_at_most_cells Demo.usedB2D4). reflexivity. Defined.

Lemma blank_sheet_no_records_witness :
  sheetCells Demo2.usedBlank = Normal [].
Proof.
  apply (blank_sheet_no_records Demo2.usedBlank eq_refl).
  intros [|[|row]] [|[|col]] value formula Hrow Hcol; cbn in *;
    try lia; by intros [= <-] [= <-].
Defined.

Lemma snapshot_keys_are_sheet_names_witness :
  exists snapshot,
    extractModelSnapshot [("Sheet1", Demo.usedA1D4); ("Sheet2", Demo.usedB2D4)]
    = Normal snapshot /\
    dom snapshot = list_to_set ["Sheet1"; "Sheet2"].
Proof.
  destruct (extractModelSnapshot
              [("Sheet1", Demo.usedA1D4); ("Sheet2", Demo.usedB2D4)])
    as [snapshot|e] eqn:Hrun; [|discriminate].
  exists snapshot. split; [done|].
  exact (proj1 (snapshot_keys_are_sheet_names _ _ Hrun)).
Defined.

End ReadingInstances.

(** ** The chat pane *)

Section ChatFacts.
Import Host Executor Snapshot Batch Chat.

Variable trim : string -> string.
Variable parseJSON : string -> option ParsedData.
Variable stringifyValue : JsVal -> string.
Variable stringifyData : ParsedData -> string.
Variable runtimeMessage : Exn -> string.
Variable resolve : string -> option Rect.

Local Abbreviation send := (sendMessage trim parseJSON stringifyValue stringifyData
                                       runtimeMessage resolve).

Lemma sendMessage_actions_cases mode response wb :
  match sendMessage_actions resolve mode response wb with
  | Executed r =>
      mode = true /\ exists batch, response = Some batch /\ batch <> [] /\
                                   r = executeActions resolve batch wb
  | Ignored _ => mode = false
  | NoActions => True
  end.
Proof.
  unfold sendMessage_actions.
  destruct response as [[|a batch]|]; cbn; try done.
  destruct mode; [|done]. split; [done|]. by exists (a :: batch).
Qed.

(** Property X21.  A call that passes the guard (non-blank input, not
    loading) always ends with the spinner off and the input box
    empty, and adds to the conversation the user's message followed by
    one assistant message, or by two when the executor threw (the
    reply, then the error).  A request, if one was sent, carries the
    input as typed, the conversation as it was before this message,
    the session ids in order, the mode flag and the snapshot just
    extracted; none is sent when extraction throws.  In read-only mode
    the workbook is the one the call started with. *)
Theorem sendMessage_conversation
    (st : ChatState) (sessions : list PdfSession)
    (items : list (string * UsedRange.t)) (backend : Payload -> Reply)
    (wb : gmap string Sheet)
    (Hinput : trim (input st) <> "")
    (Hidle : loading st = false) :
  let t := send st sessions items backend wb in
  loading (state t) = false /\
  input (state t) = "" /\
  agentMode (state t) = agentMode st /\
  (exists replies,
      messages (state t)
      = messages st ++ mkMessage user (input st) :: replies /\
      Forall (fun m => role m = assistant) replies /\
      (length replies = 1 \/
       length replies = 2 /\
       exists r e, dispatched t = Executed r /\ outcome r = Throw e)) /\
  (forall p, sent t = Some p ->
     message p = input st /\ history p = messages st /\
     sessionIds p = map sessionId sessions /\
     payloadAgentMode p = agentMode st /\
     extractModelSnapshot items = Normal (modelData p)) /\
  (sent t = None <-> exists e, extractModelSnapshot items = Throw e) /\
  (agentMode st = false -> workbook t = wb).
Proof.
  cbn zeta. unfold sendMessage.
  apply String.eqb_neq in Hinput. rewrite Hinput, Hidle. cbn [orb].
  destruct (extractModelSnapshot items) as [snapshot|e] eqn:Hextract.
  2:{ cbn. split_and!; try done.
      - exists [mkMessage assistant (errorText (thrown runtimeMessage e))].
        rewrite <- app_assoc. split_and!; [done | by repeat constructor | by left].
      - split; [eauto | done]. }
  set (payload := mkPayload _ _ _ _ _).
  assert (Hsent : forall p, Some payload = Some p ->
             message p = input st /\ history p = messages st /\
             sessionIds p = map sessionId sessions /\
             payloadAgentMode p = agentMode st /\
             Normal snapshot = Normal (modelData p))
    by (by intros p [= <-]).
  assert (Hnone : Some payload = None <-> exists e, Normal snapshot = Throw e)
    by (split; [done | by intros [? ?]]).
  destruct (backend payload) as [data|error].
  2:{ cbn. split_and!; try done.
      exists [mkMessage assistant (errorText error)].
      rewrite <- app_assoc. split_and!; [done | by repeat constructor | by left]. }
  pose proof (sendMessage_actions_cases (agentMode st)
                (actions (parsedOf parseJSON data)) wb) as Hcases.
  destruct (sendMessage_actions resolve (agentMode st) _ wb) as [r|n|] eqn:Hd.
  - destruct Hcases as [Hmode _].
    destruct (outcome r) as [[]|e] eqn:Ho; cbn; split_and!; try done.
    + eexists [_]. rewrite <- app_assoc.
      split_and!; [done | by repeat constructor | by left].
    + by rewrite Hmode.
    + eexists [_; _]. rewrite <- !app_assoc.
      split_and!; [done | by repeat constructor | right; eauto].
    + by rewrite Hmode.
  - cbn. split_and!; try done.
    eexists [_]. rewrite <- app_assoc.
    split_and!; [done | by repeat constructor | by left].
  - cbn. split_and!; try done.
    eexists [_]. rewrite <- app_assoc.
    split_and!; [done | by repeat constructor | by left].
Qed.

(** Property X22.  When the executor throws in agent mode, the user
    sees the assistant's reply and then a second assistant message
    made of the error's own text; for a dimension mismatch that text
    names the range and the expected and actual sizes.  The workbook
    is the one the executor returned. *)
Theorem sendMessage_shows_executor_error
    (st : ChatState) (sessions : list PdfSession)
    (items : list (string * UsedRange.t)) (backend : Payload -> Reply)
    (wb : gmap string Sheet)
    (snapshot : gmap string SheetSnapshot) (data : ResponseData)
    (batch : list Action) (e : Exn)
    (Hinput : trim (input st) <> "")
    (Hidle : loading st = false)
    (Hagent : agentMode st = true)
    (Hextract : extractModelSnapshot items = Normal snapshot)
    (Hreply : backend (mkPayload (input st) (messages st)
                         (map sessionId sessions) snapshot true)
              = Replied data)
    (Hactions : actions (parsedOf parseJSON data) = Some batch)
    (Hthrow : outcome (executeActions resolve batch wb) = Throw e) :
  let t := send st sessions items backend wb in
  messages (state t)
  = messages st
    ++ [ mkMessage user (input st);
         mkMessage assistant
           (responseText stringifyValue stringifyData (parsedOf parseJSON data));
         mkMessage assistant
           ("❌ Error: " ++ errorMessage (thrown runtimeMessage e)) ] /\
  workbook t = document (executeActions resolve batch wb) /\
  (forall range rows cols actualRows actualCols,
      e = DimensionMismatch range rows cols actualRows actualCols ->
      errorMessage (thrown runtimeMessage e)
      = ("Dimension mismatch: range " ++ range ++ " expects "
           ++ pretty rows ++ "x" ++ pretty cols ++ ", but values are "
           ++ pretty actualRows ++ "x" ++ pretty actualCols)%string).
Proof.
  cbn zeta. unfold sendMessage.
  apply String.eqb_neq in Hinput. rewrite Hinput, Hidle, Hextract, Hagent.
  cbn [orb]. rewrite Hreply, Hactions.
  assert (Hne : batch <> []).
  { intros ->. unfold executeActions in Hthrow. cbn in Hthrow. discriminate. }
  unfold sendMessage_actions.
  destruct batch as [|a rest]; [done|]. cbn [length Nat.ltb Nat.leb].
  rewrite Hthrow. cbn. rewrite <- !app_assoc. split_and!; [done | done |].
  by intros range rows cols actualRows actualCols ->.
Qed.

(** Property X23.  A reply that arrives as text and does not parse as
    JSON is shown as it is, and nothing is executed, agent mode or
    not: the workbook is untouched. *)
Theorem sendMessage_unparsed_reply
    (st : ChatState) (sessions : list PdfSession)
    (items : list (string * UsedRange.t)) (backend : Payload -> Reply)
    (wb : gmap string Sheet)
    (snapshot : gmap string SheetSnapshot) (text : string)
    (Hinput : trim (input st) <> "")
    (Hidle : loading st = false)
    (Hextract : extractModelSnapshot items = Normal snapshot)
    (Hreply : backend (mkPayload (input st) (messages st)
                         (map sessionId sessions) snapshot (agentMode st))
              = Replied (DataString text))
    (Hparse : parseJSON text = None) :
  let t := send st sessions items backend wb in
  messages (state t)
  = messages st ++ [mkMessage user (input st); mkMessage assistant text] /\
  dispatched t = NoActions /\
  workbook t = wb.
Proof.
  cbn zeta. unfold sendMessage.
  apply String.eqb_neq in Hinput. rewrite Hinput, Hidle, Hextract.
  cbn [orb]. rewrite Hreply. unfold parsedOf. rewrite Hparse.
  cbn. rewrite <- !app_assoc. by destruct (agentMode st).
Qed.

Lemma append_head (a : ascii) (s t : string) :
  (String a s ++ t)%string = String a (s ++ t)%string.
Proof. reflexivity. Qed.

(** Property X24.  The text the error handler starts from, "Unknown
    error occurred", is never what the user sees: every caught error
    gets a message of its own. *)
Theorem errorText_never_default (error : Caught) :
  errorText error <> "Unknown error occurred".
Proof.
  unfold errorText.
  destruct (errorResponse error) as [r|].
  - destruct (_ && _).
    + repeat (match goal with |- context [if ?b then _ else _] => destruct b end);
        first [discriminate | rewrite append_head; discriminate].
    + destruct (_ =? 400)%Z;
        first [discriminate | rewrite append_head; discriminate].
  - destruct (errorRequest error);
      first [discriminate | rewrite append_head; discriminate].
Qed.

(** Property X25.  Removing a session removes every entry with that
    id and nothing else, keeping the order of the rest; so removing
    the id of a session just added, when no other session has it,
    gives the list back.  ([addSession] does not look for duplicates:
    the same id added twice is listed twice, and one removal takes
    both.) *)
Theorem removeSession_addSession
    (now id name text : string) (count : Z) (sessions : list PdfSession) :
  (forall s, s ∈ removeSession id sessions <-> s ∈ sessions /\ sessionId s <> id) /\
  removeSession id sessions `sublist_of` sessions /\
  removeSession id (addSession now id name count text sessions)
  = removeSession id sessions /\
  (Forall (fun s => sessionId s <> id) sessions ->
   removeSession id (addSession now id name count text sessions) = sessions) /\
  length (addSession now id name count text
            (addSession now id name count text sessions))
  = S (S (length sessions)).
Proof.
  unfold removeSession, addSession. split_and!.
  - intros s. rewrite list_elem_of_In, filter_In, <- list_elem_of_In.
    rewrite negb_true_iff, String.eqb_neq. done.
  - induction sessions as [|s rest IH]; cbn; [done|].
    destruct (negb _); [by apply sublist_skip | by apply sublist_cons].
  - rewrite List.filter_app. cbn. rewrite String.eqb_refl. cbn. apply app_nil_r.
  - intros Hfresh. rewrite List.filter_app. cbn. rewrite String.eqb_refl. cbn.
    rewrite app_nil_r.
    induction Hfresh as [|s rest Hs _ IH]; cbn; [done|].
    apply String.eqb_neq in Hs. rewrite Hs. cbn. by rewrite IH.
  - rewrite !length_app. cbn. lia.
Qed.

End ChatFacts.

Section ChatInstances.
Import Host Executor Snapshot Batch Chat.

Local Abbreviation demoSend :=
  (sendMessage Demo3.trim Demo3.noParse Demo3.noText Demo3.noText
               Demo3.noText Demo.resolve).

Lemma sendMessage_conversation_witness :
  Demo3.trim (input Demo3.asking) <> "" /\
  loading (state (demoSend Demo3.asking [] Demo3.sheets Demo3.agentReply Demo.book))
  = false.
Proof.
  assert (Hinput : Demo3.trim (input Demo3.asking) <> "") by discriminate.
  split; [exact Hinput|].
  pose proof (sendMessage_conversation Demo3.trim Demo3.noParse Demo3.noText
                Demo3.noText Demo3.noText Demo.resolve Demo3.asking []
                Demo3.sheets Demo3.agentReply Demo.book Hinput eq_refl) as H.
  cbn zeta in H. exact (proj1 H).
Defined.

Lemma sendMessage_shows_executor_error_witness :
  messages (state (demoSend Demo3.asking [] Demo3.sheets Demo3.agentReply Demo.book))
  = [ mkMessage assistant "Hello";
      mkMessage user "fill A1:C2";
      mkMessage assistant "Done.";
      mkMessage assistant
        "❌ Error: Dimension mismatch: range A1:C2 expects 2x3, but values are 2x2" ].
Proof.
  assert (Hinput : Demo3.trim (input Demo3.asking) <> "") by discriminate.
  destruct (extractModelSnapshot Demo3.sheets) as [snapshot|e] eqn:Hextract;
    [|discriminate].
  pose proof (sendMessage_shows_executor_error Demo3.trim Demo3.noParse
                Demo3.noText Demo3.noText Demo3.noText Demo.resolve
                Demo3.asking [] Demo3.sheets Demo3.agentReply Demo.book
                snapshot (DataObject (mkParsed (TextResponse "Done.")
                                               (Some Demo.batch)))
                Demo.batch (DimensionMismatch "A1:C2" 2 3 2 2)
                Hinput eq_refl eq_refl Hextract eq_refl eq_refl eq_refl) as H.
  cbn zeta in H. destruct H as (Hm & _ & _). rewrite Hm. reflexivity.
Defined.

Lemma sendMessage_unparsed_reply_witness :
  dispatched (demoSend Demo3.asking [] Demo3.sheets Demo3.textReply Demo.book)
  = NoActions.
Proof.
  assert (Hinput : Demo3.trim (input Demo3.asking) <> "") by discriminate.
  destruct (extractModelSnapshot Demo3.sheets) as [snapshot|e] eqn:Hextract;
    [|discriminate].
  pose proof (sendMessage_unparsed_reply Demo3.trim Demo3.noParse
                Demo3.noText Demo3.noText Demo3.noText Demo.resolve
                Demo3.asking [] Demo3.sheets Demo3.textReply Demo.book
                snapshot "not json" Hinput eq_refl Hextract eq_refl eq_refl) as H.
  cbn zeta in H. exact (proj1 (proj2 H)).
Defined.

End ChatInstances.

(** ** The error checker pane *)

Section CheckFacts.
Import ErrorChecker Check.

(** Property X26.  A check always ends with [checking] off.  When the
    backend answers with a list, that list replaces the errors and the
    status counts it.  When the POST rejects, or answers without an
    [errors] field, the errors are empty and the status says the check
    failed, and since the banner's class looks only at the number of
    errors, the failure is shown with the class of a success. *)
Theorem runErrorCheck_status
    (items : list (string * UsedRange.t))
    (backend : gmap string DenseSheet -> CheckReply) :
  let st := runErrorCheck items backend in
  checking st = false /\
  (forall found,
      backend (extractModelData items) = Checked (Some found) ->
      errors st = found /\
      (found = [] -> status st = "No errors found! Model looks good." /\
                     bannerClass st = "success") /\
      (found <> [] ->
       status st = ("Found " ++ pretty (length found) ++ " issue(s)")%string /\
       bannerClass st = "info")) /\
  ((backend (extractModelData items) = CheckRejected \/
    backend (extractModelData items) = Checked None) ->
   errors st = [] /\
   status st = "Failed to check errors. Please try again." /\
   bannerClass st = "success").
Proof.
  cbn zeta. unfold runErrorCheck, bannerClass.
  destruct (backend (extractModelData items)) as [[found|]|]; cbn.
  - split_and!; [done | | by intros [?|?]].
    intros ? [= <-]. split_and!; [done | by intros -> |].
    destruct found; [done|]. by intros _.
  - split_and!; [done | by intros ? ? | done].
  - split_and!; [done | by intros ? ? | done].
Qed.

End CheckFacts.

(** ** The upload pane *)

Section UploadFacts.
Import Upload.

Lemma ensureSheet_adds names name op :
  op ∈ ensureSheet names name -> op = OpAddSheet name /\ (name ∉ names).
Proof.
  unfold ensureSheet. destruct (decide (name ∈ names)); [by intros []%elem_of_nil|].
  by intros ->%list_elem_of_singleton.
Qed.

(** Property X27.  A model one of whose grids is an empty list makes
    [insertModelIntoExcel] throw before its last sync.  What has
    reached the workbook by then is at most the two sheets added by
    the earlier syncs (Assumptions and Financials, each only if it was
    missing); no value, formula or header format is committed, and
    [handleUpload] reports a failure without calling
    [onModelCreated]. *)
Theorem empty_grid_aborts_upload
    (names : gset string) (modelData : ModelData) (st : UploadState)
    (name : string)
    (Hfile : file st = Some name)
    (Hempty : assumptions modelData = Some [] \/
              financials modelData = Some [] \/
              dcfCalculations modelData = Some []) :
  let run := insertModelIntoExcel names modelData in
  outcome run = Throw NullDeref /\
  committed run = ensureSheet names "Assumptions" ++ ensureSheet names "Financials" /\
  (forall op, op ∈ committed run ->
     (op = OpAddSheet "Assumptions" /\ ("Assumptions" ∉ names)) \/
     (op = OpAddSheet "Financials" /\ ("Financials" ∉ names))) /\
  handleUpload names (Some modelData) st
  = (mkUpload (Some name) false
       (Some (error, "Failed to process PDF. Please try again."))
       (modelCreated st),
     Some run).
Proof.
  cbn zeta.
  assert (Hrun : outcome (insertModelIntoExcel names modelData) = Throw NullDeref /\
                 committed (insertModelIntoExcel names modelData)
                 = ensureSheet names "Assumptions" ++ ensureSheet names "Financials").
  { unfold insertModelIntoExcel.
    destruct modelData as [a f d]. cbn in *.
    destruct a as [[|a1 ar]|]; cbn; try done;
      destruct f as [[|f1 fr]|]; cbn; try done;
      destruct d as [[|d1 dr]|]; cbn; try done;
      destruct Hempty as [?|[?|?]]; discriminate. }
  destruct Hrun as [Ho Hc]. split_and!; [done | done | |].
  - rewrite Hc. intros op [H|H]%elem_of_app; apply ensureSheet_adds in H; auto.
  - unfold handleUpload. by rewrite Hfile, Ho.
Qed.

Lemma elem_of_gridWrites sheet grid op :
  op ∈ gridWrites sheet grid <->
  exists i j row value,
    grid !! i = Some row /\ row !! j = Some value /\
    op = cellWrite sheet i j value.
Proof.
  unfold gridWrites. rewrite list_elem_of_join. split.
  - intros (ops & Hop & (i & row & -> & Hrow)%elem_of_lookup_imap).
    apply elem_of_lookup_imap in Hop as (j & value & -> & Hvalue).
    by exists i, j, row, value.
  - intros (i & j & row & value & Hrow & Hvalue & ->).
    exists (imap (fun j value => cellWrite sheet i j value) row). split.
    + apply elem_of_lookup_imap. by exists j, value.
    + apply elem_of_lookup_imap. by exists i, row.
Qed.

Lemma length_gridWrites sheet grid :
  length (gridWrites sheet grid) = sum_list (length <$> grid).
Proof.
  unfold gridWrites. rewrite length_join. f_equal.
  assert (Hgen : forall (f : nat -> list JsVal -> list UploadOp),
             (forall i row, length (f i row) = length row) ->
             length <$> imap f grid = length <$> grid).
  { induction grid as [|row rest IH]; intros f Hf; cbn; [done|].
    rewrite Hf. f_equal. apply IH. intros i r. apply Hf. }
  apply Hgen. intros i row. apply length_imap.
Qed.

(** Property X28.  Every entry of [dcfCalculations] is written once,
    into the single cell at one plus its row and one plus its column,
    rows of any lengths: as a formula when it is a string that starts
    with an equals sign, as a value otherwise.  The number of cell
    writes is the number of entries. *)
Theorem dcf_cells_written_once
    (sheet : string) (grid : list (list JsVal)) :
  length (gridWrites sheet grid) = sum_list (length <$> grid) /\
  (forall i j row value,
      grid !! i = Some row -> row !! j = Some value ->
      let cell := ByNumbers sheet (Z.of_nat i + 1) (Z.of_nat j + 1) 1 1 in
      (if isFormula value then OpFormulas cell [[value]]
       else OpValues cell [[value]]) ∈ gridWrites sheet grid) /\
  (forall op, op ∈ gridWrites sheet grid ->
      exists i j row value,
        grid !! i = Some row /\ row !! j = Some value /\
        op = (if isFormula value
              then OpFormulas (ByNumbers sheet (Z.of_nat i + 1) (Z.of_nat j + 1) 1 1)
                              [[value]]
              else OpValues (ByNumbers sheet (Z.of_nat i + 1) (Z.of_nat j + 1) 1 1)
                            [[value]])).
Proof.
  split_and!.
  - apply length_gridWrites.
  - intros i j row value Hrow Hvalue. cbn zeta.
    apply elem_of_gridWrites. exists i, j, row, value. by split_and!.
  - intros op (i & j & row & value & Hrow & Hvalue & ->)%elem_of_gridWrites.
    by exists i, j, row, value.
Qed.


(** Property X30.  A selection that is not a PDF is refused with an
    error status but does not clear the file chosen before: the
    upload button still sends the earlier file, and the upload runs as
    if the refused selection had not happened. *)
Theorem refused_selection_keeps_file
    (names : gset string) (backend : option ModelData) (st : UploadState)
    (earlier name type : string)
    (Hfile : file st = Some earlier)
    (Htype : type <> "application/pdf") :
  let st' := handleFileChange (Some (name, type)) st in
  file st' = Some earlier /\
  status st' = Some (error, "Please select a valid PDF file") /\
  handleUpload names backend st' = handleUpload names backend st.
Proof.
  cbn zeta. unfold handleFileChange.
  apply String.eqb_neq in Htype. rewrite Htype.
  split_and!; [done | done |].
  unfold handleUpload. cbn. rewrite Hfile.
  destruct backend as [modelData|]; [|done].
  by destruct (outcome (insertModelIntoExcel names modelData)).
Qed.

Lemma refused_selection_keeps_file_witness :
  file (handleFileChange (Some ("photo.png", "image/png"))
          (mkUpload (Some "report.pdf") false None false))
  = Some "report.pdf".
Proof.
  apply (refused_selection_keeps_file ∅ None
           (mkUpload (Some "report.pdf") false None false)
           "report.pdf" "photo.png" "image/png" eq_refl).
  discriminate.
Defined.

Lemma empty_grid_aborts_upload_witness :
  committed (insertModelIntoExcel {["Assumptions"]} Demo3.emptyModel)
  = [OpAddSheet "Financials"].
Proof.
  pose proof (empty_grid_aborts_upload {["Assumptions"]} Demo3.emptyModel
                (mkUpload (Some "report.pdf") false None false) "report.pdf"
                eq_refl (or_intror (or_introl eq_refl))) as H.
  cbn zeta in H. destruct H as (_ & Hc & _). rewrite Hc.
  unfold ensureSheet.
  destruct (decide ("Assumptions" ∈ ({["Assumptions"]} : gset string))) as [_|Hn];
    [|set_solver].
  destruct (decide ("Financials" ∈ ({["Assumptions"]} : gset string))) as [Hin|_];
    [|done].
  apply elem_of_singleton in Hin. discriminate.
Defined.


End UploadFacts.
